(** * nni_manager/common/utils.ts: a shallow embedding and its properties

    The file embeds the helper functions of [src/nni_manager/common/utils.ts]
    that launch, supervise and probe trial processes:

    - [charMap], [uniqueString]            (identifier generator)
    - [crossPlatformStringify],
      [getMsgDispatcherCommand]            (dispatcher command line)
    - [getIPV4Address]                     (cached host address)
    - [countFilesRecursively]              (timeout-bounded prober)
    - [getTunerProc], [isAlive], [killPid] (process supervisor)
    - [runScript]                          (launcher script)
    - [mkDirP], [mkDirPSync]               (directories)
    - [parseArg]                           (command-line arguments)
    - [generateParamFileName]              (parameter files)

    The pieces of the JavaScript runtime these functions call
    ([String.prototype.split], [JSON.stringify], [parseInt], promises,
    IEEE-754 numbers) are modelled in [Module JS]. *)

From Stdlib Require Import ZArith NArith List String Ascii Bool Lia.
From Stdlib Require Import DecimalString DecimalNat.
From Stdlib Require Import Floats.
Import ListNotations.

Local Open Scope list_scope.
Local Open Scope string_scope.

(* ================================================================== *)
(** * The JavaScript runtime, as far as utils.ts uses it *)
(* ================================================================== *)

Module JS.

(** ** Strings

    A JavaScript string is a sequence of UTF-16 code units; the embedding
    uses [string], one [ascii] per code unit, which covers the Latin-1
    range (every literal of the source is ASCII). *)

Definition dquote : ascii := ascii_of_nat 34.
Definition backslash : ascii := ascii_of_nat 92.
Definition LF : ascii := ascii_of_nat 10.
Definition CR : ascii := ascii_of_nat 13.
Definition TAB : ascii := ascii_of_nat 9.

Definition chr (c : ascii) : string := String c EmptyString.

(** [s.substr(n)]: the suffix of [s] from index [n] (empty past the end). *)
Fixpoint substr (n : nat) (s : string) : string :=
  match n, s with
  | O, _ => s
  | S k, EmptyString => EmptyString
  | S k, String _ r => substr k r
  end.

(** [rev_string acc s]: [s] reversed, followed by [acc]. *)
Fixpoint rev_string (acc : string) (s : string) : string :=
  match s with
  | EmptyString => acc
  | String c r => rev_string (String c acc) r
  end.

(** [s.split(sep)] for a non-empty separator: the pieces between the
    successive, non-overlapping occurrences of [sep], scanning from the
    left.  [skip] counts the characters of a matched separator that are
    still to be dropped; [cur] is the current piece, reversed. *)
Fixpoint split_aux (sep : string) (skip : nat) (cur : string) (s : string)
  : list string :=
  match s with
  | EmptyString => [rev_string "" cur]
  | String c r =>
      match skip with
      | S k => split_aux sep k cur r
      | O =>
          if prefix sep s
          then rev_string "" cur :: split_aux sep (length sep - 1) "" r
          else split_aux sep 0 (String c cur) r
      end
  end.

Definition split (sep s : string) : list string := split_aux sep 0 "" s.

(** [s.split(sep, limit)]: the first [limit] pieces. *)
Definition split_limit (sep : string) (limit : nat) (s : string) : list string :=
  firstn limit (split sep s).

(** [a.join(sep)]. *)
Definition join (sep : string) (l : list string) : string := concat sep l.

(** [s.includes(sub)]. *)
Definition includes (sub s : string) : bool :=
  match index 0 sub s with Some _ => true | None => false end.

(** Template-literal conversion of an optional string: an absent value
    renders as the text [undefined]. *)
Definition template (v : option string) : string :=
  match v with Some s => s | None => "undefined" end.

(** ** JSON values and [JSON.stringify]

    A number is kept as the text [Number.prototype.toString] gives for it,
    which is what [JSON.stringify] emits.  The properties of an object are
    listed in the order JavaScript enumerates them. *)

#[local] Set Warnings "-register-all".
Inductive json : Type :=
| JNull
| JBool (b : bool)
| JNum (literal : string)
| JStr (s : string)
| JArr (items : list json)
| JObj (props : list (string * json)).
#[local] Set Warnings "register-all".

Definition hexdigit (n : N) : ascii :=
  ascii_of_N (if (n <? 10)%N then 48 + n else 87 + n)%N.

(** One code unit inside a JSON string literal (QuoteJSONString). *)
Definition escape_char (c : ascii) : string :=
  let n := N_of_ascii c in
  if (n =? 8)%N then "\b"
  else if (n =? 9)%N then "\t"
  else if (n =? 10)%N then "\n"
  else if (n =? 12)%N then "\f"
  else if (n =? 13)%N then "\r"
  else if (n =? 34)%N then String backslash (chr dquote)
  else if (n =? 92)%N then String backslash (chr backslash)
  else if (n <? 32)%N
       then "\u00" ++ String (hexdigit (n / 16)) (chr (hexdigit (n mod 16)))
       else chr c.

Fixpoint escape (s : string) : string :=
  match s with
  | EmptyString => EmptyString
  | String c r => escape_char c ++ escape r
  end.

Definition quote (s : string) : string :=
  String dquote (escape s ++ chr dquote).

Fixpoint JSON_stringify (v : json) : string :=
  match v with
  | JNull => "null"
  | JBool true => "true"
  | JBool false => "false"
  | JNum literal => literal
  | JStr s => quote s
  | JArr items => "[" ++ concat "," (map JSON_stringify items) ++ "]"
  | JObj props =>
      "{" ++ concat ","
               (map (fun kv => let '(k, x) := kv in
                               quote k ++ ":" ++ JSON_stringify x) props)
          ++ "}"
  end.

(** Decoding of one JSON string literal ([JSON.parse] on a token that is
    a string): the inverse of [quote]. *)
Definition hexval (c : ascii) : option N :=
  let n := N_of_ascii c in
  if ((48 <=? n) && (n <=? 57))%N then Some (n - 48)%N
  else if ((97 <=? n) && (n <=? 102))%N then Some (n - 87)%N
  else if ((65 <=? n) && (n <=? 70))%N then Some (n - 55)%N
  else None.

Definition cons_opt (c : ascii) (r : option string) : option string :=
  match r with Some s => Some (String c s) | None => None end.

Fixpoint unescape (s : string) : option string :=
  match s with
  | EmptyString => None
  | String c r =>
      if Ascii.eqb c dquote then
        match r with EmptyString => Some EmptyString | _ => None end
      else if Ascii.eqb c backslash then
        match r with
        | String e r' =>
            if Ascii.eqb e "b" then cons_opt (ascii_of_nat 8) (unescape r')
            else if Ascii.eqb e "t" then cons_opt TAB (unescape r')
            else if Ascii.eqb e "n" then cons_opt LF (unescape r')
            else if Ascii.eqb e "f" then cons_opt (ascii_of_nat 12) (unescape r')
            else if Ascii.eqb e "r" then cons_opt CR (unescape r')
            else if Ascii.eqb e "/" then cons_opt "/" (unescape r')
            else if Ascii.eqb e dquote then cons_opt dquote (unescape r')
            else if Ascii.eqb e backslash then cons_opt backslash (unescape r')
            else if Ascii.eqb e "u" then
              match r' with
              | String h1 (String h2 (String h3 (String h4 r''))) =>
                  match hexval h1, hexval h2, hexval h3, hexval h4 with
                  | Some 0%N, Some 0%N, Some a, Some b =>
                      cons_opt (ascii_of_N (16 * a + b)) (unescape r'')
                  | _, _, _, _ => None
                  end
              | _ => None
              end
            else None
        | EmptyString => None
        end
      else if (N_of_ascii c <? 32)%N then None
      else cons_opt c (unescape r)
  end.

Definition JSON_parse_string (s : string) : option string :=
  match s with
  | String c r => if Ascii.eqb c dquote then unescape r else None
  | EmptyString => None
  end.

(** ** Numbers

    A JavaScript number is an IEEE-754 binary64 value: the kernel's
    primitive [float], whose [+], [-], [*], [/] and [<] are the operations
    of the source.  [Math.floor], [Math.ceil] and [%] are computed exactly
    through the integer decomposition [Prim2SF] of a float. *)

Definition number_of_Z (z : Z) : float := of_uint63 (Uint63.of_Z z).
Definition number_of_nat (n : nat) : float := number_of_Z (Z.of_nat n).
Definition number_of_byte (b : Byte.byte) : float :=
  number_of_Z (Z.of_N (Byte.to_N b)).

Definition Math_floor (x : float) : float :=
  match Prim2SF x with
  | S754_finite s m e =>
      if (0 <=? e)%Z then x
      else
        let q := Z.shiftr (Z.pos m) (- e) in
        let exact := (Z.shiftl q (- e) =? Z.pos m)%Z in
        if s then (- number_of_Z (if exact then q else q + 1))%float
        else number_of_Z q
  | _ => x
  end.

Definition Math_ceil (x : float) : float := (- Math_floor (- x))%float.

(** [x % y] (the remainder has the sign of [x] and is exact). *)
Definition fmod (x y : float) : float :=
  match Prim2SF x, Prim2SF y with
  | S754_nan, _ | _, S754_nan | S754_infinity _, _ | _, S754_zero _ => nan
  | S754_zero _, _ | S754_finite _ _ _, S754_infinity _ => x
  | S754_finite s mx ex, S754_finite _ my ey =>
      let e := Z.min ex ey in
      let r := ((Z.pos mx * 2 ^ (ex - e)) mod (Z.pos my * 2 ^ (ey - e)))%Z in
      let v := Z.ldexp (number_of_Z r) e in
      if s then (- v)%float else v
  end.

(** The integer a number truncates to, with 0 for [NaN] and the
    infinities, as ToUint16 and the length of a buffer take it. *)
Definition truncate (x : float) : Z :=
  match Prim2SF x with
  | S754_finite s m e =>
      let mag := if (0 <=? e)%Z then Z.shiftl (Z.pos m) e
                 else Z.shiftr (Z.pos m) (- e) in
      if s then (- mag)%Z else mag
  | _ => 0%Z
  end.

(** [String.fromCharCode(...codes)]: each code through ToUint16; the
    result is kept as its code units. *)
Definition ToUint16 (x : float) : N := Z.to_N (truncate x mod 65536).
Definition String_fromCharCode (codes : list float) : list N :=
  map ToUint16 codes.

(** [Math.log2(52)] and [Math.log2(62)], the two values the source asks
    for, as binary64 literals. *)
Definition Math_log2_52 : float := 0x1.6cd4011c8f119p+2%float.
Definition Math_log2_62 : float := 0x1.7d118d66c4d4ep+2%float.

(** ** Errors and results of synchronous calls *)

Inductive error : Type :=
| Error (message : string)
| TypeError (message : string).

Inductive result (A : Type) : Type :=
| Ok (a : A)
| Throw (e : error).
Arguments Ok {A} a.
Arguments Throw {A} e.

(** ** [parseInt(string)] without a radix

    Leading white space is skipped, a sign is read, a [0x]/[0X] prefix
    selects radix 16, and the longest run of digits is converted; [None]
    stands for [NaN] (no digit).  The value is kept exact. *)

Definition is_whitespace (c : ascii) : bool :=
  let n := N_of_ascii c in
  ((n =? 9) || (n =? 10) || (n =? 11) || (n =? 12) || (n =? 13)
   || (n =? 32) || (n =? 160))%N.

Fixpoint trimStart (s : string) : string :=
  match s with
  | String c r => if is_whitespace c then trimStart r else s
  | EmptyString => s
  end.

Definition digit (radix : Z) (c : ascii) : option Z :=
  match hexval c with
  | Some d => if (Z.of_N d <? radix)%Z then Some (Z.of_N d) else None
  | None => None
  end.

(** [acc] is the value of the digits read so far, [None] before the first. *)
Fixpoint parse_digits (radix : Z) (acc : option Z) (s : string) : option Z :=
  match s with
  | String c r =>
      match digit radix c with
      | Some d =>
          parse_digits radix
            (Some (match acc with Some a => a * radix + d | None => d end)%Z) r
      | None => acc
      end
  | EmptyString => acc
  end.

Definition parseInt (s : string) : option Z :=
  let s := trimStart s in
  let '(sign, s) :=
    match s with
    | String c r =>
        if Ascii.eqb c "-" then ((-1)%Z, r)
        else if Ascii.eqb c "+" then (1%Z, r) else (1%Z, s)
    | EmptyString => (1%Z, s)
    end in
  let '(radix, s) :=
    if prefix "0x" s || prefix "0X" s then (16%Z, substr 2 s) else (10%Z, s) in
  match parse_digits radix None s with
  | Some v => Some (sign * v)%Z
  | None => None
  end.

(** Truthiness of a number: [NaN] and 0 are falsy. *)
Definition truthy_number (v : option Z) : bool :=
  match v with Some z => negb (z =? 0)%Z | None => false end.

(** Truthiness of a string: the empty string is falsy. *)
Definition truthy_string (s : string) : bool :=
  match s with EmptyString => false | _ => true end.

(** Decimal rendering of a natural number ([`${n}`]). *)
Definition decimal (n : nat) : string :=
  NilEmpty.string_of_uint (Nat.to_uint n).
Definition decimalN (n : N) : string :=
  NilEmpty.string_of_uint (N.to_uint n).

(** ** Promises

    A promise is observed through the state it ends in.  Where the race
    against a timer matters, a settlement carries the time, in
    milliseconds after the call, at which it happens. *)

Inductive promise (A : Type) : Type :=
| Pending
| Fulfilled (value : A)
| Rejected (reason : error).
Arguments Pending {A}.
Arguments Fulfilled {A} value.
Arguments Rejected {A} reason.

(** [new Deferred()], [deferred.resolve(v)] and [deferred.reject(e)]. *)
Definition Deferred_new {A : Type} : promise A := Pending.
Definition Deferred_resolve {A : Type} (d : promise A) (v : A) : promise A :=
  match d with Pending => Fulfilled v | _ => d end.
Definition Deferred_reject {A : Type} (d : promise A) (e : error) : promise A :=
  match d with Pending => Rejected e | _ => d end.

(** A promise with the time at which it settles; [None]: it never does. *)
Definition timed (A : Type) : Type := option (N * promise A).

(** [Promise.race([p, q])]: the one that settles first; [p] on a tie. *)
Definition race {A : Type} (p q : timed A) : timed A :=
  match p, q with
  | Some (t, _), Some (u, _) => if (t <=? u)%N then p else q
  | Some _, None => p
  | None, _ => q
  end.

Definition final {A : Type} (p : timed A) : promise A :=
  match p with Some (_, s) => s | None => Pending end.

(** What running an external command gives ([child-process-promise]'s
    [exec]): it exits with status 0 after [elapsed] ms, leaving [stdout];
    or it fails (non-zero status, or it cannot be started); or it never
    ends. *)
Inductive ExecOutcome : Type :=
| Exits (elapsed : N) (stdout : string)
| Fails (elapsed : N) (e : error)
| Hangs.

End JS.
Import JS.

(* ================================================================== *)
(** * Command Line Builder *)
(* ================================================================== *)

(** A tuner, assessor or advisor description.  The parameters are typed
    [any] in the source; the code reads the four properties below and
    tells an absent one by [=== undefined], so every property is optional
    here and [None] stands for [undefined]. *)
Record AlgoSpec : Type := mkAlgoSpec {
  className : option string;
  classArgs : option json;
  codeDir : option string;
  classFileName : option string
}.

(** Truthiness of an optional object: [undefined] is falsy, an object is
    truthy. *)
Definition truthy {A : Type} (v : option A) : bool :=
  match v with Some _ => true | None => false end.

Section Platform.

(** [process.platform]. *)
Variable platform : string.

Definition crossPlatformStringify (args : json) : string :=
  if platform =? "win32"
  then JSON_stringify args
  else JSON_stringify (JStr (JSON_stringify args)).

Definition msg_both : string :=
  "Error: specify both tuner/assessor and advisor is not allowed".
Definition msg_neither : string :=
  "Error: specify neither tuner nor advisor is not allowed".

Definition getMsgDispatcherCommand
  (tuner assessor advisor : option AlgoSpec) (multiPhase multiThread : bool)
  : result string :=
  if (truthy tuner || truthy assessor) && truthy advisor then
    Throw (Error msg_both)
  else if negb (truthy tuner) && negb (truthy advisor) then
    Throw (Error msg_neither)
  else
    let command := "python3 -m nni" in
    let command := if multiPhase then command ++ " --multi_phase" else command in
    let command := if multiThread then command ++ " --multi_thread" else command in
    match advisor with
    | Some advisor =>
        let command :=
          command ++ " --advisor_class_name " ++ template (className advisor) in
        let command :=
          match classArgs advisor with
          | Some a => command ++ " --advisor_args " ++ crossPlatformStringify a
          | None => command
          end in
        let command :=
          match codeDir advisor with
          | Some d =>
              if (1 <? length d)%nat
              then command ++ " --advisor_directory " ++ d else command
          | None => command
          end in
        let command :=
          match classFileName advisor with
          | Some f =>
              if (1 <? length f)%nat
              then command ++ " --advisor_class_filename " ++ f else command
          | None => command
          end in
        Ok command
    | None =>
        match tuner with
        | None =>
            (* not reached: [tuner.className] on [undefined] *)
            Throw (TypeError "Cannot read property 'className' of undefined")
        | Some tuner =>
            let command :=
              command ++ " --tuner_class_name " ++ template (className tuner) in
            let command :=
              match classArgs tuner with
              | Some a => command ++ " --tuner_args " ++ crossPlatformStringify a
              | None => command
              end in
            let command :=
              match codeDir tuner with
              | Some d =>
                  if (1 <? length d)%nat
                  then command ++ " --tuner_directory " ++ d else command
              | None => command
              end in
            let command :=
              match classFileName tuner with
              | Some f =>
                  if (1 <? length f)%nat
                  then command ++ " --tuner_class_filename " ++ f else command
              | None => command
              end in
            match assessor with
            | Some assessor =>
                match className assessor with
                | Some cn =>
                    let command := command ++ " --assessor_class_name " ++ cn in
                    let command :=
                      match classArgs assessor with
                      | Some a =>
                          command ++ " --assessor_args " ++ crossPlatformStringify a
                      | None => command
                      end in
                    let command :=
                      match codeDir assessor with
                      | Some d =>
                          if (1 <? length d)%nat
                          then command ++ " --assessor_directory " ++ d
                          else command
                      | None => command
                      end in
                    let command :=
                      match classFileName assessor with
                      | Some f =>
                          if (1 <? length f)%nat
                          then command ++ " --assessor_class_filename " ++ f
                          else command
                      | None => command
                      end in
                    Ok command
                | None => Ok command
                end
            | None => Ok command
            end
        end
    end.

End Platform.

(* ================================================================== *)
(** * Identifier Generator *)
(* ================================================================== *)

Definition charMap (index : float) : float :=
  if (index <? 26)%float then (index + 97)%float
  else if (index <? 52)%float then (index - 26 + 65)%float
  else (index - 52 + 48)%float.

(** The body of the [for] loop of [uniqueString], run [n] times. *)
Fixpoint uniqueString_loop (n : nat) (num : float) (codes : list float)
  : list float :=
  match n with
  | O => codes
  | S k =>
      let codes := (codes ++ [charMap (fmod num 62%float)])%list in
      let num := Math_floor (num / 62)%float in
      uniqueString_loop k num codes
  end.

(** [randomBytes] is the source of randomness ([crypto.randomBytes]): asked
    for [n] bytes it returns a buffer of [n] bytes. *)
Definition uniqueString (randomBytes : nat -> list Byte.byte) (len : nat)
  : list N :=
  match len with
  | O => []
  | S _ =>
      let byteLength : float :=
        Math_ceil
          ((Math_log2_52 + Math_log2_62 * (number_of_nat len - 1)) / 8)%float in
      let num : float :=
        fold_left (fun a b => (a * 256 + number_of_byte b)%float)
                  (randomBytes (Z.to_nat (truncate byteLength))) 0%float in
      let codes := [charMap (fmod num 52%float)] in
      let num := Math_floor (num / 52)%float in
      String_fromCharCode (uniqueString_loop (len - 1) num codes)
  end.

(* ================================================================== *)
(** * Cached host address *)
(* ================================================================== *)

(** One entry of [os.networkInterfaces().eth0]. *)
Record NetworkInterfaceInfo : Type := mkInterface {
  family : string;
  address : string
}.

(** The module-level variable [cachedipv4Address], together with the
    number of times [os.networkInterfaces()] has been called so far. *)
Record HostState : Type := mkHost {
  cachedipv4Address : string;
  inspections : nat
}.

Definition initialHost : HostState := mkHost "" 0.

Section Host.

(** [os k] is what the [k]-th call of [os.networkInterfaces()] reports
    under the key [eth0] ([None]: no such key). *)
Variable os : nat -> option (list NetworkInterfaceInfo).

Definition networkInterfaces_eth0 (st : HostState)
  : option (list NetworkInterfaceInfo) * HostState :=
  (os (inspections st), mkHost (cachedipv4Address st) (S (inspections st))).

(** The [for ... of] loop: the first entry whose family is [IPv4]. *)
Fixpoint firstIPv4 (items : list NetworkInterfaceInfo)
  : option NetworkInterfaceInfo :=
  match items with
  | item :: rest => if family item =? "IPv4" then Some item else firstIPv4 rest
  | [] => None
  end.

Definition getIPV4Address (st : HostState) : HostState * result string :=
  if truthy_string (cachedipv4Address st)
     && (0 <? length (cachedipv4Address st))%nat
  then (st, Ok (cachedipv4Address st))
  else
    let '(eth0, st) := networkInterfaces_eth0 st in
    match eth0 with
    | Some _ =>
        let '(eth0, st) := networkInterfaces_eth0 st in
        match eth0 with
        | Some items =>
            match firstIPv4 items with
            | Some item =>
                (mkHost (address item) (inspections st), Ok (address item))
            | None =>
                (st, Throw (Error
                   "getIPV4Address() failed because no valid IPv4 address found."))
            end
        | None => (st, Throw (TypeError "undefined is not iterable"))
        end
    | None =>
        (st, Throw (Error
           "getIPV4Address() failed because os.networkInterfaces().eth0 is undefined."))
    end.

End Host.

(** A run of calls, one after the other, each with its own view of the
    operating system; the results are listed in call order. *)
Fixpoint getIPV4Address_calls
  (oss : list (nat -> option (list NetworkInterfaceInfo))) (st : HostState)
  : HostState * list (result string) :=
  match oss with
  | [] => (st, [])
  | os :: rest =>
      let '(st1, r) := getIPV4Address os st in
      let '(st2, rs) := getIPV4Address_calls rest st1 in
      (st2, r :: rs)
  end.

(* ================================================================== *)
(** * Timeout-Bounded Prober *)
(* ================================================================== *)

Section Prober.

(** [fs.existsSync] and [cpp.exec] at the time of the call. *)
Variable existsSync : string -> bool.
Variable exec : string -> ExecOutcome.

Definition msg_notfound (directory : string) : string :=
  "Direcotory " ++ directory ++ " doesn't exist".
Definition msg_timeout (directory : string) : string :=
  "Timeout: path " ++ directory ++ " has too many files".

Definition countFilesRecursively
  (directory : string) (timeoutMilliSeconds : option nat)
  : result (promise Z) :=
  if negb (existsSync directory) then
    Throw (Error (msg_notfound directory))
  else
    let delayTimeout : timed Z :=
      Some (5000%N, Rejected (Error (msg_timeout directory))) in
    let fileCount : Z := (-1)%Z in
    let deferred : timed Z :=
      match exec ("find " ++ directory ++ " -type f | wc -l") with
      | Exits t stdout =>
          let fileCount :=
            if truthy_string stdout && truthy_number (parseInt stdout)
            then match parseInt stdout with Some v => v | None => fileCount end
            else fileCount in
          Some (t, Fulfilled fileCount)
      | Fails _ _ => None   (* no rejection handler: never resolved *)
      | Hangs => None
      end in
    Ok (final (race deferred delayTimeout)).

End Prober.

(* ================================================================== *)
(** * Process Supervisor *)
(* ================================================================== *)

Section Supervisor.

Variable platform : string.

(** The types of [stdio] and of the environment passed to [spawn]. *)
Variables StdioOptions Env : Type.

Record SpawnOptions : Type := mkSpawnOptions {
  stdio : StdioOptions;
  cwd : string;
  env : Env;
  shell : bool
}.

(** A child process, identified with the call of [spawn] that made it. *)
Record ChildProcess : Type := spawn {
  file : string;
  args : list string;
  options : SpawnOptions
}.

Definition getTunerProc
  (command : string) (stdio : StdioOptions) (newCwd : string) (newEnv : Env)
  : ChildProcess :=
  if platform =? "win32" then
    let command := join "python" (split "python3" command) in
    let cmd := hd "" (split_limit " " 1 command) in
    spawn cmd (split " " (substr (length cmd + 1) command))
          (mkSpawnOptions stdio newCwd newEnv false)
  else
    spawn command [] (mkSpawnOptions stdio newCwd newEnv true).

(** [cp.execSync] and [cpp.exec]. *)
Variable execSync : string -> result string.
Variable exec : string -> ExecOutcome.

Definition isAlive (pid : nat) : promise bool :=
  let deferred : promise bool := Deferred_new in
  let alive := false in
  if platform =? "win32" then
    match execSync ("tasklist /FI "
                    ++ String dquote ("PID eq " ++ decimal pid ++ chr dquote)) with
    | Ok str =>
        let alive := if negb (includes "No tasks" str) then true else alive in
        Deferred_resolve deferred alive
    | Throw e => Rejected e
    end
  else
    match exec ("kill -0 " ++ decimal pid) with
    | Exits _ _ => Deferred_resolve deferred true
    | Fails _ _ => Deferred_resolve deferred alive
    | Hangs => Pending
    end.

Definition killPid (pid : nat) : promise unit :=
  let deferred : promise unit := Deferred_new in
  match exec ("kill " ++ decimal pid) with
  | Exits _ _ => deferred
  | Fails _ _ => deferred   (* pid does not exist, do nothing here *)
  | Hangs => Pending
  end.

End Supervisor.

Arguments spawn {StdioOptions Env} file args options.
Arguments mkSpawnOptions {StdioOptions Env} stdio cwd env shell.
Arguments file {StdioOptions Env} c.
Arguments args {StdioOptions Env} c.
Arguments options {StdioOptions Env} c.
Arguments shell {StdioOptions Env} s.

(* ================================================================== *)
(** * Script Materializer *)
(* ================================================================== *)

Module TrialConfig.
(** Modelled from the spec: the class [TrialConfig] comes from
    [training_service/common/trialConfig], which is not among the sources;
    it is given the two properties [runScript] reads, the user command and
    the directory it is run from. *)
Record t : Type := mk {
  command : string;
  codeDir : string
}.
End TrialConfig.

(** What [runScript] does to the outside, in order. *)
Inductive effect : Type :=
| RunCommand (cmd : string)
| WriteFile (path content : string) (mode : N).

Section Materializer.

Variable platform : string.

(** [path.join] of the platform. *)
Variable path_join : list string -> string.

(** The lines pushed to [runScriptLines] on the native-shell platform. *)
Definition runScriptLines_win32
  (localTrailConfig : TrialConfig.t) (workingDirectory : string)
  (variables : list (string * string)) : list string :=
  List.app
    ["cd " ++ TrialConfig.codeDir localTrailConfig]
  (List.app
    (map (fun variable =>
            "$env:" ++ fst variable ++ "="
              ++ String dquote (snd variable ++ chr dquote))
         variables)
      [ "Invoke-Expression "
          ++ String dquote (TrialConfig.command localTrailConfig ++ chr dquote)
          ++ " 2>" ++ path_join [workingDirectory; "stderr"];
        "$NOW_DATE = [int64](([datetime]::UtcNow)-(get-date "
          ++ String dquote ("1/1/1970" ++ chr dquote) ++ ")).TotalSeconds";
        "$NOW_DATE = " ++ String dquote ("$NOW_DATE" ++ chr dquote) ++ " + "
          ++ String dquote ("000" ++ chr dquote);
        "$state = 0";
        "if($?){$state = 0}";
        "else{$state = 2}";
        "Write $state " ++ String dquote (" " ++ chr dquote)
          ++ " $NOW_DATE  | Out-File "
          ++ path_join [workingDirectory; ".nni"; "state"]
          ++ " -NoNewline -encoding utf8" ]).

(** The lines pushed to [runScriptLines] on the other platforms. *)
Definition runScriptLines_posix
  (localTrailConfig : TrialConfig.t) (workingDirectory : string)
  (variables : list (string * string)) : list string :=
  List.app
    ["#!/bin/bash"; "cd " ++ TrialConfig.codeDir localTrailConfig]
  (List.app
    (map (fun variable => "export " ++ fst variable ++ "=" ++ snd variable)
         variables)
      [ "eval " ++ TrialConfig.command localTrailConfig
          ++ " 2>" ++ path_join [workingDirectory; "stderr"];
        "echo $? `date +%s000` >"
          ++ path_join [workingDirectory; ".nni"; "state"] ]).

Variable exec : string -> ExecOutcome.

(** [fs.promises.writeFile]: [None] when the file is written. *)
Variable writeFile : string -> string -> N -> option error.

(** [await cpp.exec(cmd)] followed by the rest of the function. *)
Definition await_exec {A : Type} (cmd : string)
  (rest : list effect * promise A) : list effect * promise A :=
  match exec cmd with
  | Exits _ _ => (RunCommand cmd :: fst rest, snd rest)
  | Fails _ e => ([RunCommand cmd], Rejected e)
  | Hangs => ([RunCommand cmd], Pending)
  end.

Definition await_writeFile {A : Type} (path content : string) (mode : N)
  (rest : list effect * promise A) : list effect * promise A :=
  match writeFile path content mode with
  | None => (WriteFile path content mode :: fst rest, snd rest)
  | Some e => ([WriteFile path content mode], Rejected e)
  end.

Definition runScript
  (localTrailConfig : TrialConfig.t) (workingDirectory : string)
  (variables : list (string * string)) : list effect * promise (list string) :=
  let deferred : promise (list string) := Deferred_new in
  if platform =? "win32" then
    let runScriptLines :=
      runScriptLines_win32 localTrailConfig workingDirectory variables in
    await_exec ("mkdir " ++ workingDirectory)
   (await_exec ("mkdir " ++ path_join [workingDirectory; ".nni"])
   (await_exec ("copy NUL " ++ path_join [workingDirectory; ".nni"; "metrics"])
   (await_writeFile (path_join [workingDirectory; "run.ps1"])
                    (join (String CR (chr LF)) runScriptLines) 511
      ([], Deferred_resolve deferred ["powershell"; "run.ps1"]))))
  else
    let runScriptLines :=
      runScriptLines_posix localTrailConfig workingDirectory variables in
    await_exec ("mkdir -p " ++ workingDirectory)
   (await_exec ("mkdir -p " ++ path_join [workingDirectory; ".nni"])
   (await_exec ("touch " ++ path_join [workingDirectory; ".nni"; "metrics"])
   (await_writeFile (path_join [workingDirectory; "run.sh"])
                    (join (chr LF) runScriptLines) 511
      ([], Deferred_resolve deferred ["bash"; "run.sh"])))).

End Materializer.

(* ================================================================== *)
(** * The launcher scripts, run *)
(* ================================================================== *)

(** The two scripts [runScript] writes are straight-line programs.  Their
    statements are given a syntax whose rendering is, line for line, the
    text [runScript] produces, and a semantics: what [bash] or PowerShell
    does with each line, as far as the state file is concerned. *)

Module Shell.

Inductive stmt : Type :=
(* bash *)
| Shebang
| Cd (dir : string)
| Export (key value : string)
| EvalCommand (command stderr : string)
| EchoStatus (state : string)
(* PowerShell *)
| PsCd (dir : string)
| PsSetEnv (key value : string)
| PsInvoke (command stderr : string)
| PsNowSeconds
| PsNowMillis
| PsStateInit
| PsIfSucceeded
| PsElse
| PsWriteState (state : string).

Definition render (s : stmt) : string :=
  match s with
  | Shebang => "#!/bin/bash"
  | Cd dir => "cd " ++ dir
  | Export key value => "export " ++ key ++ "=" ++ value
  | EvalCommand command stderr => "eval " ++ command ++ " 2>" ++ stderr
  | EchoStatus state => "echo $? `date +%s000` >" ++ state
  | PsCd dir => "cd " ++ dir
  | PsSetEnv key value =>
      "$env:" ++ key ++ "=" ++ String dquote (value ++ chr dquote)
  | PsInvoke command stderr =>
      "Invoke-Expression " ++ String dquote (command ++ chr dquote)
        ++ " 2>" ++ stderr
  | PsNowSeconds =>
      "$NOW_DATE = [int64](([datetime]::UtcNow)-(get-date "
        ++ String dquote ("1/1/1970" ++ chr dquote) ++ ")).TotalSeconds"
  | PsNowMillis =>
      "$NOW_DATE = " ++ String dquote ("$NOW_DATE" ++ chr dquote) ++ " + "
        ++ String dquote ("000" ++ chr dquote)
  | PsStateInit => "$state = 0"
  | PsIfSucceeded => "if($?){$state = 0}"
  | PsElse => "else{$state = 2}"
  | PsWriteState state =>
      "Write $state " ++ String dquote (" " ++ chr dquote)
        ++ " $NOW_DATE  | Out-File " ++ state ++ " -NoNewline -encoding utf8"
  end.

Section Launchers.

Variable path_join : list string -> string.
Variable localTrailConfig : TrialConfig.t.
Variable workingDirectory : string.
Variable variables : list (string * string).

Definition launcher_posix : list stmt :=
  List.app
    [Shebang; Cd (TrialConfig.codeDir localTrailConfig)]
  (List.app
    (map (fun variable => Export (fst variable) (snd variable)) variables)
    [ EvalCommand (TrialConfig.command localTrailConfig)
                  (path_join [workingDirectory; "stderr"]);
      EchoStatus (path_join [workingDirectory; ".nni"; "state"]) ]).

Definition launcher_win32 : list stmt :=
  List.app
    [PsCd (TrialConfig.codeDir localTrailConfig)]
  (List.app
    (map (fun variable => PsSetEnv (fst variable) (snd variable)) variables)
    [ PsInvoke (TrialConfig.command localTrailConfig)
               (path_join [workingDirectory; "stderr"]);
      PsNowSeconds; PsNowMillis; PsStateInit; PsIfSucceeded; PsElse;
      PsWriteState (path_join [workingDirectory; ".nni"; "state"]) ]).

End Launchers.

(** The semantics covers the scripts whose substituted texts are plain:
    a directory or file name made of letters, digits and the characters
    [_ - . / :] (and the backslash, for PowerShell), a variable name made
    of letters, digits and [_], a value that is empty or plain.  Such a
    text is one word for either shell; a line with any other text (a
    blank, a quote, a [;], a [$]) is given no meaning. *)
Inductive dialect : Type := Bash | PowerShell.

Definition word_char (c : ascii) : bool :=
  let n := N_of_ascii c in
  ((48 <=? n) && (n <=? 57) || (65 <=? n) && (n <=? 90)
   || (97 <=? n) && (n <=? 122) || (n =? 95))%N.

Definition plain_char (d : dialect) (c : ascii) : bool :=
  let n := N_of_ascii c in
  (word_char c || (n =? 45) || (n =? 46) || (n =? 47) || (n =? 58)
   || match d with Bash => false | PowerShell => (n =? 92) end)%N.

Fixpoint all_chars (f : ascii -> bool) (s : string) : bool :=
  match s with
  | EmptyString => true
  | String c r => f c && all_chars f r
  end.

Definition word (s : string) : bool :=
  truthy_string s && all_chars word_char s.
Definition plain (d : dialect) (s : string) : bool :=
  truthy_string s && all_chars (plain_char d) s.
Definition plain_value (d : dialect) (s : string) : bool :=
  all_chars (plain_char d) s.

(** The world a script runs in.

    [exit_status command]: how the line that runs the user command ends.
    [Some n]: the command runs as a child of the shell would, ends with
    status [n], and the shell goes on with the next line, itself as it
    was.  [None]: the shell does not get to the next line (the command is
    [exit] or [exec], ends the shell otherwise, or never ends).

    [stderr_text command]: what the command writes to its standard error.

    [writable path]: whether the shell can create or truncate the file
    [path] when a line redirects to it.

    [clock]: the number of seconds the script reads from the clock.

    [ps_succeeded n]: what PowerShell's [$?] holds when [if($?)] is
    reached, after a command that ended with status [n].  Three
    assignments stand between the command and the test; what they leave
    in [$?] is not decided here, the properties hold for every
    [ps_succeeded]. *)
Record world : Type := mkWorld {
  exit_status : string -> option nat;
  stderr_text : string -> string;
  writable : string -> bool;
  clock : N;
  ps_succeeded : nat -> bool
}.

(** The shell while the script runs: bash's [$?], when the model knows it;
    PowerShell's [$?], [$NOW_DATE] and [$state]; whether the branch of the
    last [if] was taken; and the files the lines of the script have
    written, the latest first. *)
Record machine : Type := mkMachine {
  status : option nat;
  succeeded : bool;
  NOW_DATE : string;
  state : nat;
  taken : bool;
  files : list (string * string)
}.

Definition boot : machine := mkMachine None true "" 0 false [].

Definition write (path content : string) (m : machine) : machine :=
  mkMachine (status m) (succeeded m) (NOW_DATE m) (state m) (taken m)
            ((path, content) :: files m).

Definition set_status (s : option nat) (m : machine) : machine :=
  mkMachine s (succeeded m) (NOW_DATE m) (state m) (taken m) (files m).

(** Where a script is after a line: at its next line; at its end, the
    shell being over before the last line; or nowhere the model knows,
    the line being outside the plain scripts. *)
Inductive progress : Type :=
| Next (m : machine)
| Over (m : machine)
| Unknown.

Definition line (w : world) (m : machine) (s : stmt) : progress :=
  match s with
  | Shebang => Next m
  | Cd dir =>
      if plain Bash dir then Next (set_status None m) else Unknown
  | Export key value =>
      if word key && plain_value Bash value
      then Next (set_status None m) else Unknown
  | EvalCommand command stderr =>
      if plain Bash stderr then
        if writable w stderr then
          let m := write stderr (stderr_text w command) m in
          match exit_status w command with
          | Some n => Next (set_status (Some n) m)
          | None => Over m
          end
        else Next (set_status (Some 1%nat) m)   (* the command is not run *)
      else Unknown
  | EchoStatus path =>
      if plain Bash path then
        match status m with
        | Some n =>
            if writable w path then
              Next (set_status (Some 0%nat)
                      (write path
                         (decimal n ++ " " ++ decimalN (clock w) ++ "000"
                            ++ chr LF) m))
            else Next (set_status (Some 1%nat) m)
        | None => Unknown
        end
      else Unknown
  | PsCd dir => if plain PowerShell dir then Next m else Unknown
  | PsSetEnv key value =>
      if word key && plain_value PowerShell value then Next m else Unknown
  | PsInvoke command stderr =>
      if plain PowerShell stderr && writable w stderr then
        let m := write stderr (stderr_text w command) m in
        match exit_status w command with
        | Some n =>
            Next (mkMachine (status m) (ps_succeeded w n) (NOW_DATE m)
                            (state m) (taken m) (files m))
        | None => Over m
        end
      else Unknown
  | PsNowSeconds =>
      Next (mkMachine (status m) (succeeded m) (decimalN (clock w)) (state m)
                      (taken m) (files m))
  | PsNowMillis =>
      Next (mkMachine (status m) (succeeded m) (NOW_DATE m ++ "000") (state m)
                      (taken m) (files m))
  | PsStateInit =>
      Next (mkMachine (status m) (succeeded m) (NOW_DATE m) 0 (taken m)
                      (files m))
  | PsIfSucceeded =>
      if succeeded m
      then Next (mkMachine (status m) (succeeded m) (NOW_DATE m) 0 true
                           (files m))
      else Next (mkMachine (status m) (succeeded m) (NOW_DATE m) (state m)
                           false (files m))
  | PsElse =>
      if taken m then Next m
      else Next (mkMachine (status m) (succeeded m) (NOW_DATE m) 2 (taken m)
                           (files m))
  | PsWriteState path =>
      (* the text of the file; the byte-order mark [-encoding utf8] may
         put before it is left out *)
      if plain PowerShell path then
        if writable w path
        then Next (write path (decimal (state m) ++ " " ++ NOW_DATE m) m)
        else Next m
      else Unknown
  end.

Definition step (w : world) (p : progress) (s : stmt) : progress :=
  match p with
  | Next m => line w m s
  | Over m => Over m
  | Unknown => Unknown
  end.

Definition run (w : world) (script : list stmt) : progress :=
  fold_left (step w) script (Next boot).

Fixpoint read (path : string) (fs : list (string * string)) : option string :=
  match fs with
  | (p, content) :: rest => if p =? path then Some content else read path rest
  | [] => None
  end.

(** The first field of a state file, as a monitor reads it: the text
    before the first blank, as an integer. *)
Definition first_field (content : string) : option Z :=
  parseInt (hd "" (split " " content)).

(** The first field of the state file the lines of a script leave behind;
    [None] when they leave none, or the script is not a plain one. *)
Definition recorded_status (w : world) (script : list stmt) (path : string)
  : option Z :=
  match run w script with
  | Next m | Over m =>
      match read path (files m) with
      | Some content => first_field content
      | None => None
      end
  | Unknown => None
  end.


End Shell.

(* ================================================================== *)
(** * Directories *)
(* ================================================================== *)

Module FS.

(** A path, as [path.dirname] and the file system see it once it is
    normalised: the list of its segments, the last one first.  [[]] is the
    path [path.dirname] gives back unchanged ([/] for an absolute path). *)
Definition path : Type := list string.

(** [path.dirname]. *)
Definition dirname (p : path) : path := tl p.

(** The path as text, for the messages of the system errors. *)
Definition path_text (p : path) : string := "/" ++ concat "/" (rev p).

Inductive kind : Type := Dir | Reg.

(** The file system as the process sees it: what [stat] reports at each
    path, a directory or a regular file, or nothing ([None]: nothing is
    there, or what is there cannot be reached: a link that leads nowhere,
    a directory that may not be searched). *)
Definition state : Type := path -> option kind.

Fixpoint path_eqb (p q : path) : bool :=
  match p, q with
  | [], [] => true
  | a :: p, b :: q => (a =? b) && path_eqb p q
  | _, _ => false
  end.

(** [fs.existsSync] and the answer [fs.exists] passes to its callback. *)
Definition existsSync (fs : state) (p : path) : bool :=
  match fs p with Some _ => true | None => false end.

(** The errors of mkdir(2): the three the state of the file system
    decides, and any other, with its code and its description
    ([EACCES], [ENAMETOOLONG], [EROFS], [ENOSPC], ...). *)
Inductive errno : Type :=
| EEXIST
| ENOENT
| ENOTDIR
| Errno (code description : string).

(** mkdir(2), which [fs.mkdirSync] and [fs.mkdir] call.  [refuses p] is
    the error the system has for making [p] whatever the process sees
    there, if it has one: no permission, a name too long, a link that
    leads nowhere in the way ([EEXIST]), a full or read-only disk.
    Otherwise the path must be free and its parent a directory.  A call
    that fails changes nothing. *)
Definition mkdir (refuses : path -> option errno) (fs : state) (p : path)
  : state * option errno :=
  match refuses p with
  | Some e => (fs, Some e)
  | None =>
      match fs p with
      | Some _ => (fs, Some EEXIST)
      | None =>
          match fs (dirname p) with
          | Some Dir => (fun q => if path_eqb q p then Some Dir else fs q, None)
          | Some Reg => (fs, Some ENOTDIR)
          | None => (fs, Some ENOENT)
          end
      end
  end.

(** The [Error] Node makes of a failed system call. *)
Definition SystemError (e : errno) (syscall : string) (p : path) : error :=
  Error ((match e with
          | EEXIST => "EEXIST: file already exists, "
          | ENOENT => "ENOENT: no such file or directory, "
          | ENOTDIR => "ENOTDIR: not a directory, "
          | Errno code description => code ++ ": " ++ description ++ ", "
          end) ++ syscall ++ " '" ++ path_text p ++ "'").

(** How a synchronous call ends.  [StackOverflow]: the recursion does not
    come to an end, which Node reports as [RangeError: Maximum call stack
    size exceeded]. *)
Inductive completion : Type :=
| Returns
| Throws (e : error)
| StackOverflow.

End FS.

Section Directories.

(** What the system refuses to make, apart from what the process sees in
    the way (see [FS.mkdir]). *)
Variable refuses : FS.path -> option FS.errno.

(** [dirPath] is created after its parent; the two functions are run with
    nothing else touching the file system meanwhile. *)
Fixpoint mkDirP (fs : FS.state) (dirPath : FS.path) {struct dirPath}
  : FS.state * promise unit :=
  let deferred : promise unit := Deferred_new in
  if FS.existsSync fs dirPath then (fs, Deferred_resolve deferred tt)
  else
    match dirPath with
    | [] => (fs, deferred)   (* [mkDirP(parent)] is this very call, again *)
    | _ :: parent =>
        match mkDirP fs parent with
        | (fs, Fulfilled _) =>
            match FS.mkdir refuses fs dirPath with
            | (fs, Some err) =>
                (fs, Deferred_reject deferred (FS.SystemError err "mkdir" dirPath))
            | (fs, None) => (fs, Deferred_resolve deferred tt)
            end
        | (fs, Rejected err) => (fs, Deferred_reject deferred err)
        | (fs, Pending) => (fs, deferred)
        end
    end.

Fixpoint mkDirPSync (fs : FS.state) (dirPath : FS.path) {struct dirPath}
  : FS.state * FS.completion :=
  if FS.existsSync fs dirPath then (fs, FS.Returns)
  else
    match dirPath with
    | [] => (fs, FS.StackOverflow)   (* [path.dirname(dirPath)] is [dirPath] *)
    | _ :: parent =>
        match mkDirPSync fs parent with
        | (fs, FS.Returns) =>
            match FS.mkdir refuses fs dirPath with
            | (fs, Some err) => (fs, FS.Throws (FS.SystemError err "mkdir" dirPath))
            | (fs, None) => (fs, FS.Returns)
            end
        | (fs, c) => (fs, c)
        end
    end.

End Directories.

(* ================================================================== *)
(** * Command-line arguments *)
(* ================================================================== *)

(** The [for] loop of [parseArg]; [rest] is [process.argv] from index [i]
    on.  The loop stops before the last entry. *)
Fixpoint parseArg_loop (names : list string) (rest : list string) : string :=
  match rest with
  | arg :: ((value :: _) as rest) =>
      if existsb (String.eqb arg) names then value
      else parseArg_loop names rest
  | _ => ""
  end.

(** [argv] is [process.argv]. *)
Definition parseArg (argv : list string) (names : list string) : string :=
  if (4 <=? List.length argv)%nat then parseArg_loop names (skipn 2 argv)
  else "".

(* ================================================================== *)
(** * Parameter files *)
(* ================================================================== *)

Module HyperParameters.
(** Modelled from the spec: the interface [HyperParameters] comes from
    [common/trainingService], which is not among the sources; it is given
    the property [generateParamFileName] reads, the index of the
    parameter set, an integer. *)
Record t : Type := mk {
  index : Z
}.
End HyperParameters.

(** [None]: an [assert] fails, and the call throws [AssertionError]. *)
Definition generateParamFileName (hyperParameters : option HyperParameters.t)
  : option string :=
  match hyperParameters with
  | None => None
  | Some hyperParameters =>
      if negb (0 <=? HyperParameters.index hyperParameters)%Z then None
      else
        let paramFileName :=
          if (HyperParameters.index hyperParameters =? 0)%Z then "parameter.cfg"
          else "parameter_" ++ decimal (Z.to_nat (HyperParameters.index hyperParameters)) ++ ".cfg" in
        Some paramFileName
  end.

(* ================================================================== *)
(** * The vocabulary of the properties *)
(* ================================================================== *)

(** ** Strings and numerals *)

Definition is_digit (c : ascii) : bool :=
  match digit 10 c with Some _ => true | None => false end.

Fixpoint all_digits (s : string) : bool :=
  match s with
  | EmptyString => true
  | String c r => is_digit c && all_digits r
  end.

(** A string that does not go on with a decimal digit. *)
Definition stops (rest : string) : Prop :=
  match rest with
  | EmptyString => True
  | String c _ => digit 10 c = None
  end.

Fixpoint no_blank (s : string) : bool :=
  match s with
  | EmptyString => true
  | String c r => negb (Ascii.eqb c " ") && no_blank r
  end.

(** ** Identifier Generator *)

(** The character classes of an identifier, on code units. *)
Definition is_letter (c : N) : bool :=
  ((65 <=? c) && (c <=? 90) || (97 <=? c) && (c <=? 122))%N.
Definition is_alnum (c : N) : bool :=
  (is_letter c || (48 <=? c) && (c <=? 57))%N.

(** An identifier as the documentation describes it: a letter, then
    letters and digits. *)
Definition well_formed_id (id : list N) : bool :=
  match id with
  | [] => true
  | c :: rest => is_letter c && forallb is_alnum rest
  end.

Definition null_codes (len : nat) : list N := repeat 0%N len.

(** The number [uniqueString] folds the random bytes into. *)
Definition drawn (randomBytes : nat -> list Byte.byte) (len : nat) : float :=
  fold_left (fun a b => (a * 256 + number_of_byte b)%float)
    (randomBytes
       (Z.to_nat
          (truncate
             (Math_ceil
                ((Math_log2_52 + Math_log2_62 * (number_of_nat len - 1)) / 8)%float))))
    0%float.

(** The 256 bytes. *)
Definition all_bytes : list Byte.byte :=
  map (fun n => match Byte.of_N (N.of_nat n) with Some b => b | None => Byte.x00 end)
      (seq 0 256).

(** ** Command Line Builder *)

(** The options of a dispatcher command line, as the interface documents
    them: a role, a field of its description, and the value passed. *)
Inductive role : Type := Tuner | Assessor | Advisor.
Inductive field : Type := ClassName | Args | Directory | ClassFileNameField.

Definition token : Type := (role * field * string)%type.

Definition role_name (r : role) : string :=
  match r with Tuner => "tuner" | Assessor => "assessor" | Advisor => "advisor" end.

Definition field_suffix (f : field) : string :=
  match f with
  | ClassName => "_class_name"
  | Args => "_args"
  | Directory => "_directory"
  | ClassFileNameField => "_class_filename"
  end.

Definition flag (r : role) (f : field) : string :=
  "--" ++ role_name r ++ field_suffix f.

Definition render_token (t : token) : string :=
  let '(r, f, v) := t in " " ++ flag r f ++ " " ++ v.

Fixpoint render_tokens (l : list token) : string :=
  match l with
  | [] => ""
  | t :: rest => render_token t ++ render_tokens rest
  end.

(** An optional text field is passed when it is present and longer than
    one character. *)
Definition text_token (r : role) (f : field) (v : option string) : list token :=
  match v with
  | Some s => if (1 <? length s)%nat then [(r, f, s)] else []
  | None => []
  end.

Definition args_token (platform : string) (r : role) (v : option json)
  : list token :=
  match v with
  | Some a => [(r, Args, crossPlatformStringify platform a)]
  | None => []
  end.

(** The options that describe one algorithm. *)
Definition spec_tokens (platform : string) (r : role) (name : string)
  (s : AlgoSpec) : list token :=
  ((r, ClassName, name)
   :: args_token platform r (classArgs s)
   ++ text_token r Directory (codeDir s)
   ++ text_token r ClassFileNameField (classFileName s))%list.

(** The options of a whole command line: the advisor's, or else the
    tuner's followed by those of an assessor that names its class. *)
Definition dispatcher_tokens (platform : string)
  (tuner assessor advisor : option AlgoSpec) : list token :=
  match advisor with
  | Some a => spec_tokens platform Advisor (template (className a)) a
  | None =>
      match tuner with
      | Some t =>
          (spec_tokens platform Tuner (template (className t)) t
           ++ match assessor with
              | Some s =>
                  match className s with
                  | Some name => spec_tokens platform Assessor name s
                  | None => []
                  end
              | None => []
              end)%list
      | None => []
      end
  end.

(** The command before its options. *)
Definition base_command (multiPhase multiThread : bool) : string :=
  "python3 -m nni"
    ++ (if multiPhase then " --multi_phase" else "")
    ++ (if multiThread then " --multi_thread" else "").

(** The description a role's options are taken from, and the field of it
    an option carries. *)
Definition spec_of (r : role) (tuner assessor advisor : option AlgoSpec)
  : option AlgoSpec :=
  match r with Tuner => tuner | Assessor => assessor | Advisor => advisor end.

Definition text_field (f : field) (s : AlgoSpec) : option string :=
  match f with
  | Directory => codeDir s
  | ClassFileNameField => classFileName s
  | ClassName | Args => None
  end.

(** The command line shows an option: its text occurs in it. *)
Definition shows (command : string) (t : token) : bool :=
  includes (render_token t) command.

Definition specified {A : Type} (v : option A) : Prop := v <> None.

(** The error the builder raises for a configuration it refuses. *)
Definition InvalidConfiguration (e : error) : Prop :=
  e = Error msg_both \/ e = Error msg_neither.

(** What the three optional steps of the builder append for one
    description. *)
Definition args_segment (platform flagtext : string) (v : option json) : string :=
  match v with
  | Some a => flagtext ++ crossPlatformStringify platform a
  | None => ""
  end.

Definition text_segment (flagtext : string) (v : option string) : string :=
  match v with
  | Some s => if (1 <? length s)%nat then flagtext ++ s else ""
  | None => ""
  end.

(** [reencode n s]: the text [s] encoded [n] more times, each time as a
    JSON string. *)
Fixpoint reencode (n : nat) (s : string) : string :=
  match n with
  | O => s
  | S k => JSON_stringify (JStr (reencode k s))
  end.

(** [levels] levels of JSON encoding of a payload ([levels >= 1]). *)
Definition encode_levels (levels : nat) (args : json) : string :=
  reencode (levels - 1) (JSON_stringify args).

(** Three descriptions: a tuner, an assessor without a class name, and
    the same assessor with one. *)
Definition tuner_T : AlgoSpec := mkAlgoSpec (Some "T") None None None.
Definition assessor_unnamed : AlgoSpec :=
  mkAlgoSpec None None (Some "/tmp/a") (Some "a.py").
Definition assessor_named : AlgoSpec :=
  mkAlgoSpec (Some "Medianstop") None (Some "/tmp/a") (Some "a").

(** ** Cached host address *)

(** A host with an IPv6 and an IPv4 address on [eth0]. *)
Definition eth0_example (k : nat) : option (list NetworkInterfaceInfo) :=
  Some [mkInterface "IPv6" "fe80::1"; mkInterface "IPv4" "10.0.0.4"].

(** A host whose only entry on [eth0] is an [IPv4] entry with an empty
    address. *)
Definition eth0_blank (k : nat) : option (list NetworkInterfaceInfo) :=
  Some [mkInterface "IPv4" ""].

(** ** Timeout-Bounded Prober *)

(** The two errors of the prober, told by their messages. *)
Definition NotFound (directory : string) (e : error) : Prop :=
  e = Error (msg_notfound directory).
Definition Timeout (directory : string) (e : error) : Prop :=
  e = Error (msg_timeout directory).

(** A call fails with an error of kind [P]: it throws it, or the promise
    it returns is rejected with it. *)
Definition fails_with {A : Type} (r : result (promise A)) (P : error -> Prop)
  : Prop :=
  match r with
  | Throw e => P e
  | Ok (Rejected e) => P e
  | Ok _ => False
  end.

(** What [find <dir> -type f | wc -l] prints for a directory holding [n]
    regular files: the count in decimal, after [pad] blanks (none with GNU
    [wc], some with BSD [wc]), and a line feed. *)
Fixpoint blanks (pad : nat) : string :=
  match pad with O => "" | S k => String " " (blanks k) end.
Definition wc_l_output (pad n : nat) : string :=
  blanks pad ++ decimal n ++ chr LF.

(** ** Process Supervisor *)

(** The command with every [python3] replaced by [python]. *)
Definition substituted (command : string) : string :=
  join "python" (split "python3" command).

(** A [kill] that finds no process. *)
Definition no_such_process : string -> ExecOutcome :=
  fun _ => Fails 3 (Error "kill: (42) - No such process").

(** ** Script Materializer *)

(** [path.join] on POSIX and on [win32], for paths that need no
    normalisation. *)
Definition posix_join (l : list string) : string := concat "/" l.
Definition win32_join (l : list string) : string := concat (chr backslash) l.

Definition mnist : TrialConfig.t := TrialConfig.mk "python3 mnist.py" "/code".

(** A user command that ends with status 3 and hands the shell back, at
    second 1700000000; [$?] is taken to report the failure of the
    command.  And a user command that ends the shell. *)
Definition exits_with_3 : Shell.world :=
  Shell.mkWorld (fun _ => Some 3%nat) (fun _ => "") (fun _ => true) 1700000000
                (fun n => Nat.eqb n 0).
Definition ends_the_shell : Shell.world :=
  Shell.mkWorld (fun _ => None) (fun _ => "") (fun _ => true) 1700000000
                (fun n => Nat.eqb n 0).

(** The three commands [runScript] has to run before it writes the
    script, in their order, and the name of the script. *)
Definition scaffolding (platform : string) (path_join : list string -> string)
  (workingDirectory : string) : list string :=
  if platform =? "win32" then
    [ "mkdir " ++ workingDirectory;
      "mkdir " ++ path_join [workingDirectory; ".nni"];
      "copy NUL " ++ path_join [workingDirectory; ".nni"; "metrics"] ]
  else
    [ "mkdir -p " ++ workingDirectory;
      "mkdir -p " ++ path_join [workingDirectory; ".nni"];
      "touch " ++ path_join [workingDirectory; ".nni"; "metrics"] ].
Definition script_name (platform : string) : string :=
  if platform =? "win32" then "run.ps1" else "run.sh".

(** ** Identifier Generator, one character *)

(** The code unit [uniqueString] makes of the index [k]. *)
Definition charCode (k : nat) : N := ToUint16 (charMap (number_of_nat k)).

(** ** External commands *)

(** The command ends with status 0. *)
Definition succeeds (exec : string -> ExecOutcome) (cmd : string) : Prop :=
  exists elapsed stdout, exec cmd = Exits elapsed stdout.

(** ** Directories *)

(** [q] is [p] or a directory above it. *)
Definition above_or_self (q p : FS.path) : Prop :=
  exists below : list string, p = (below ++ q)%list.

(** [q] is a directory above [p]. *)
Definition above (q p : FS.path) : Prop :=
  exists (name : string) (below : list string), p = (below ++ name :: q)%list.

(** Whatever there is in the file system is in a directory, the top
    apart. *)
Definition closed (fs : FS.state) : Prop :=
  forall (name : string) (p : FS.path),
    fs (name :: p) <> None -> fs p = Some FS.Dir.

(** How the promise of [mkDirP] ends for each way [mkDirPSync] ends. *)
Definition settled (c : FS.completion) : promise unit :=
  match c with
  | FS.Returns => Fulfilled tt
  | FS.Throws e => Rejected e
  | FS.StackOverflow => Pending
  end.

(** A file system with the directory [/home] and the regular file
    [/home/notes]. *)
Definition home : FS.state :=
  fun p =>
    match p with
    | [] => Some FS.Dir
    | [a] => if a =? "home" then Some FS.Dir else None
    | [b; a] => if (a =? "home") && (b =? "notes") then Some FS.Reg else None
    | _ => None
    end.

(** A system with no room left for [/home/nni/log]. *)
Definition no_room (p : FS.path) : option FS.errno :=
  if FS.path_eqb p ["log"; "nni"; "home"]
  then Some (FS.Errno "ENOSPC" "no space left on device") else None.

(* ================================================================== *)
(** * Properties *)
(* ================================================================== *)

(** ** Tactics *)

(** Proves that a configuration made of [Some] and [None] is refused. *)
Ltac show_refused :=
  first [ left; split; [first [left; discriminate | right; discriminate]
                       | discriminate]
        | right; split; reflexivity ].

(** ** The runtime model on known values *)

Example split_values :
  split " " "a  b " = ["a"; ""; "b"; ""]
  /\ split " " "" = [""]
  /\ split "python3" "python3 x/python3.7" = [""; " x/"; ".7"]
  /\ split_limit " " 1 "python -m nni" = ["python"]
  /\ substr 7 "python -m nni" = "-m nni"
  /\ substr 7 "python" = "".
Proof. repeat split. Qed.

Example JSON_stringify_values :
  JSON_stringify
    (JObj [("optimize_mode", JStr "maximize"); ("population_size", JNum "3")])
  = "{" ++ quote "optimize_mode" ++ ":" ++ quote "maximize" ++ ","
        ++ quote "population_size" ++ ":3}"
  /\ JSON_stringify (JArr [JNull; JBool true; JStr (chr LF)])
     = "[null,true," ++ quote (chr LF) ++ "]"
  /\ quote (String LF (String dquote "a"))
     = String dquote ("\n\" ++ String dquote ("a" ++ chr dquote)).
Proof. repeat split. Qed.

Example parseInt_values :
  parseInt "42" = Some 42%Z
  /\ parseInt ("  7" ++ chr LF) = Some 7%Z
  /\ parseInt "0" = Some 0%Z
  /\ parseInt "-0x1f" = Some (-31)%Z
  /\ parseInt "12abc" = Some 12%Z
  /\ parseInt "abc" = None
  /\ parseInt "" = None.
Proof. repeat split. Qed.

Example number_values :
  Math_floor 3.5 = 3%float
  /\ Math_floor (-3.5) = (-4)%float
  /\ Math_ceil 148.5 = 149%float
  /\ Math_floor infinity = infinity
  /\ fmod 7.5 2 = 1.5%float
  /\ fmod 123456789 52 = 1%float
  /\ fmod infinity 52 = nan
  /\ Math_floor (123456789 / 52) = 2374169%float
  /\ (nan <? 26)%float = false
  /\ ToUint16 nan = 0%N
  /\ ToUint16 65601 = 65%N.
Proof. repeat split. Qed.

(** ** Strings *)

Lemma append_assoc (a b c : string) : (a ++ b) ++ c = a ++ (b ++ c).
Proof. induction a as [|x a IH]; simpl; [reflexivity | now rewrite IH]. Qed.

Lemma append_nil_r (a : string) : a ++ "" = a.
Proof. induction a as [|x a IH]; simpl; [reflexivity | now rewrite IH]. Qed.

(** ** Decimal numerals and [parseInt] *)

Lemma string_of_uint_digits (d : Decimal.uint) :
  all_digits (NilEmpty.string_of_uint d) = true.
Proof. induction d; simpl; auto. Qed.

Lemma parse_digits_uint (d : Decimal.uint) :
  forall (a : nat) (rest : string),
    stops rest ->
    parse_digits 10 (Some (Z.of_nat a)) (NilEmpty.string_of_uint d ++ rest)
    = Some (Z.of_nat (Nat.of_uint_acc d a)).
Proof.
  induction d; intros a rest Hrest;
    try (cbn [NilEmpty.string_of_uint append parse_digits];
         match goal with
         | |- context [digit 10 ?c] =>
             let v := eval vm_compute in (digit 10 c) in
             change (digit 10 c) with v
         end;
         cbv iota beta; cbn [Nat.of_uint_acc];
         rewrite <- (IHd _ rest Hrest);
         do 2 f_equal; rewrite Nat.tail_mul_spec; lia).
  cbn [NilEmpty.string_of_uint append Nat.of_uint_acc].
  destruct rest as [|c r]; cbn [parse_digits]; [reflexivity|].
  cbn in Hrest. now rewrite Hrest.
Qed.

Lemma to_uint_nonnil (n : nat) : Nat.to_uint n <> Decimal.Nil.
Proof.
  intros H. pose proof (DecimalNat.Unsigned.of_to n) as E.
  rewrite H in E. cbn in E. subst n. discriminate H.
Qed.

Lemma parse_digits_decimal (n : nat) (rest : string) :
  stops rest ->
  parse_digits 10 None (decimal n ++ rest) = Some (Z.of_nat n).
Proof.
  intros Hrest. unfold decimal.
  pose proof (to_uint_nonnil n) as Hn.
  pose proof (DecimalNat.Unsigned.of_to n) as E. unfold Nat.of_uint in E.
  rewrite <- E at 2.
  rewrite <- (parse_digits_uint (Nat.to_uint n) 0 rest Hrest).
  destruct (Nat.to_uint n); try contradiction; reflexivity.
Qed.

Lemma decimal_shape (n : nat) :
  exists c r, decimal n = String c r /\ is_digit c = true /\ all_digits r = true.
Proof.
  unfold decimal. pose proof (to_uint_nonnil n) as Hn.
  pose proof (string_of_uint_digits (Nat.to_uint n)) as Hd.
  destruct (Nat.to_uint n); try contradiction; cbn in Hd |- *;
    eexists _, _; (split; [reflexivity | split; [reflexivity | exact Hd]]).
Qed.

Lemma trimStart_blanks (pad : nat) (s : string) :
  trimStart (blanks pad ++ s) = trimStart s.
Proof. induction pad as [|k IH]; [reflexivity | exact IH]. Qed.

(** A decimal digit is neither white space nor a sign nor the letter x. *)
Lemma is_digit_cases (c : ascii) :
  is_digit c = true ->
  is_whitespace c = false /\ Ascii.eqb c "-" = false /\ Ascii.eqb c "+" = false
  /\ Ascii.eqb c "x" = false /\ Ascii.eqb c "X" = false /\ Ascii.eqb c " " = false.
Proof.
  destruct c as [[] [] [] [] [] [] [] []]; vm_compute; intros H;
    try discriminate H; repeat split.
Qed.

Lemma prefix_pair_false (a b c d : ascii) (t : string) :
  Ascii.eqb d b = false ->
  prefix (String a (String b "")) (String c (String d t)) = false.
Proof.
  intros H. cbn [prefix].
  destruct (ascii_dec a c); [|reflexivity].
  destruct (ascii_dec b d) as [<-|]; [|reflexivity].
  now rewrite Ascii.eqb_refl in H.
Qed.

Lemma prefix_pair_short (a b c : ascii) :
  prefix (String a (String b "")) (String c "") = false.
Proof. cbn [prefix]. destruct (ascii_dec a c); reflexivity. Qed.

Lemma parseInt_decimal (pad n : nat) (rest : string) :
  stops rest ->
  match rest with
  | String c _ => Ascii.eqb c "x" = false /\ Ascii.eqb c "X" = false
  | EmptyString => True
  end ->
  parseInt (blanks pad ++ decimal n ++ rest) = Some (Z.of_nat n).
Proof.
  intros Hstop Hx. unfold parseInt. rewrite trimStart_blanks.
  pose proof (parse_digits_decimal n rest Hstop) as Hp.
  destruct (decimal_shape n) as (c & r & E & Hc & Hr).
  rewrite E in Hp |- *. cbn [append trimStart].
  destruct (is_digit_cases c Hc) as (W & M & P & _).
  rewrite W, M, P.
  assert (Hpre : (prefix "0x" (String c (r ++ rest))
                  || prefix "0X" (String c (r ++ rest))) = false).
  { destruct r as [|c2 r2]; cbn [append].
    - destruct rest as [|c3 r3].
      + now rewrite !prefix_pair_short.
      + destruct Hx as [X1 X2]. now rewrite !prefix_pair_false.
    - cbn in Hr. apply andb_true_iff in Hr as [Hc2 _].
      destruct (is_digit_cases c2 Hc2) as (_ & _ & _ & X1 & X2 & _).
      now rewrite !prefix_pair_false. }
  rewrite Hpre. cbn [append] in Hp. rewrite Hp. f_equal. lia.
Qed.

(** ** Splitting at blanks *)

Lemma split_aux_blank (cur r : string) :
  split_aux " " 0 cur (String " " r) = rev_string "" cur :: split_aux " " 0 "" r.
Proof.
  cbn [split_aux prefix length Nat.sub].
  destruct (ascii_dec " " " ") as [_|N]; [|now destruct N].
  destruct r; reflexivity.
Qed.

Lemma split_aux_other (c : ascii) (cur r : string) :
  Ascii.eqb c " " = false ->
  split_aux " " 0 cur (String c r) = split_aux " " 0 (String c cur) r.
Proof.
  intros H. cbn [split_aux prefix].
  destruct (ascii_dec " " c) as [<-|]; [discriminate H | reflexivity].
Qed.

Lemma rev_string_app (s acc t : string) :
  rev_string acc s ++ t = rev_string (acc ++ t) s.
Proof.
  revert acc. induction s as [|c r IH]; intros acc; cbn [rev_string];
    [reflexivity | apply IH].
Qed.

(** The pieces of a text whose first blank comes after [a]. *)
Lemma split_at_first_blank (a b cur : string) :
  no_blank a = true ->
  split_aux " " 0 cur (a ++ String " " b)
  = (rev_string "" cur ++ a) :: split " " b.
Proof.
  revert cur. induction a as [|c a IH]; intros cur Ha.
  - cbn [append]. rewrite split_aux_blank, append_nil_r. reflexivity.
  - cbn [no_blank] in Ha. apply andb_true_iff in Ha as [Hc Ha].
    apply negb_true_iff in Hc.
    cbn [append]. rewrite split_aux_other by exact Hc.
    rewrite IH by exact Ha. cbn [rev_string].
    rewrite !rev_string_app. reflexivity.
Qed.

Lemma includes_blank_cons (c : ascii) (r : string) :
  includes " " (String c r) = Ascii.eqb c " " || includes " " r.
Proof.
  unfold includes. cbn [index prefix].
  destruct (ascii_dec " " c) as [<-|N].
  - destruct r; reflexivity.
  - assert (E : Ascii.eqb c " " = false)
      by (apply Ascii.eqb_neq; congruence).
    rewrite E. cbn [orb]. destruct (index 0 " " r); reflexivity.
Qed.

Lemma first_blank (s : string) :
  includes " " s = true ->
  exists a b, s = a ++ String " " b /\ no_blank a = true.
Proof.
  induction s as [|c r IH]; [discriminate|].
  rewrite includes_blank_cons. destruct (Ascii.eqb c " ") eqn:E.
  - intros _. apply Ascii.eqb_eq in E as ->. now exists "", r.
  - cbn [orb]. intros H. destruct (IH H) as (a & b & -> & Ha).
    exists (String c a), b. split; [reflexivity|].
    cbn [no_blank]. now rewrite E, Ha.
Qed.

Lemma substr_past (a b : string) : substr (length a + 1) (a ++ String " " b) = b.
Proof. induction a as [|c a IH]; [reflexivity | exact IH]. Qed.



(** ** JSON string literals *)

Lemma unescape_escape_char (c : ascii) (rest : string) :
  unescape (escape_char c ++ rest) = cons_opt c (unescape rest).
Proof.
  destruct c as [[] [] [] [] [] [] [] []]; reflexivity.
Qed.

Lemma unescape_escape (s : string) :
  unescape (escape s ++ chr dquote) = Some s.
Proof.
  induction s as [|c r IH]; [reflexivity|].
  cbn [escape]. rewrite append_assoc, unescape_escape_char, IH. reflexivity.
Qed.

(** Decoding undoes one level of string encoding. *)
Lemma JSON_parse_string_quote (s : string) :
  JSON_parse_string (JSON_stringify (JStr s)) = Some s.
Proof. cbn. apply unescape_escape. Qed.

(** ** Identifier Generator *)

(** Once the number drawn is infinite, it stays infinite and every code
    is [NaN]. *)
Lemma uniqueString_loop_infinity (n : nat) (codes : list float) :
  uniqueString_loop n infinity codes = (codes ++ repeat nan n)%list.
Proof.
  revert codes. induction n as [|k IH]; intros codes; cbn [uniqueString_loop repeat].
  - now rewrite app_nil_r.
  - change (Math_floor (infinity / 62)) with infinity.
    change (charMap (fmod infinity 62)) with nan.
    rewrite IH, <- app_assoc. reflexivity.
Qed.

(** Whenever the random bytes fold to an infinite number, the identifier
    is made of the code unit 0 alone, whatever its length. *)
Lemma uniqueString_of_infinity (randomBytes : nat -> list Byte.byte) (len : nat) :
  drawn randomBytes (S len) = infinity ->
  uniqueString randomBytes (S len) = null_codes (S len).
Proof.
  intros H. unfold uniqueString. cbv zeta. fold (drawn randomBytes (S len)).
  rewrite H.
  change (Math_floor (infinity / 52)) with infinity.
  change (charMap (fmod infinity 52)) with nan.
  rewrite uniqueString_loop_infinity. unfold String_fromCharCode, null_codes.
  cbn [Nat.sub List.app map repeat]. rewrite Nat.sub_0_r, map_repeat.
  reflexivity.
Qed.

(** C4.  With 173 characters asked for, [uniqueString] draws 129 random
    bytes and folds them into one binary64 number; unless the first byte
    is 0 the number is infinite, every remainder is [NaN], and the result
    is 173 times the code unit 0: it has the length asked for, but it is
    not an identifier.  Here the first byte is 1 and the others are any
    one byte [b]. *)
Theorem uniqueString_overflow (b : Byte.byte) :
  let randomBytes := fun n : nat => firstn n (Byte.x01 :: repeat b n) in
  let id := uniqueString randomBytes 173 in
  List.length (randomBytes 129) = 129
  /\ List.length id = 173
  /\ id = null_codes 173
  /\ well_formed_id id = false.
Proof.
  destruct b; vm_compute; repeat split.
Qed.

(** Short identifiers are as the documentation says: every identifier of
    one character, and one of eight. *)
Example uniqueString_1 :
  forallb (fun b => well_formed_id (uniqueString (fun _ => [b]) 1)
                    && (List.length (uniqueString (fun _ => [b]) 1) =? 1)%nat)
          all_bytes
  = true.
Proof. vm_compute. reflexivity. Qed.

Example uniqueString_8 :
  uniqueString (fun n => firstn n [Byte.x01; Byte.x23; Byte.x45; Byte.x67;
                                   Byte.x89; Byte.xab]) 8
  = [104; 108; 112; 77; 104; 113; 65; 97]%N.
Proof. vm_compute. reflexivity. Qed.

Example uniqueString_0 (randomBytes : nat -> list Byte.byte) :
  uniqueString randomBytes 0 = [].
Proof. reflexivity. Qed.

(** ** Command Line Builder *)

Lemma optional_steps (platform c fa fd ff : string) (s : AlgoSpec) :
  (let command := c in
   let command :=
     match classArgs s with
     | Some a => command ++ fa ++ crossPlatformStringify platform a
     | None => command
     end in
   let command :=
     match codeDir s with
     | Some d => if (1 <? length d)%nat then command ++ fd ++ d else command
     | None => command
     end in
   let command :=
     match classFileName s with
     | Some f => if (1 <? length f)%nat then command ++ ff ++ f else command
     | None => command
     end in
   command)
  = c ++ args_segment platform fa (classArgs s)
      ++ text_segment fd (codeDir s) ++ text_segment ff (classFileName s).
Proof.
  unfold args_segment, text_segment.
  destruct (classArgs s), (codeDir s) as [d|], (classFileName s) as [f|];
    try destruct (1 <? length d)%nat; try destruct (1 <? length f)%nat;
    cbv zeta beta iota; rewrite ?append_assoc, ?append_nil_r; reflexivity.
Qed.

Lemma render_tokens_app (l1 l2 : list token) :
  render_tokens (l1 ++ l2) = render_tokens l1 ++ render_tokens l2.
Proof.
  induction l1 as [|t l1 IH]; cbn [List.app render_tokens]; [reflexivity|].
  now rewrite IH, append_assoc.
Qed.

Lemma render_spec_tokens (platform : string) (r : role) (name : string) (s : AlgoSpec) :
  render_tokens (spec_tokens platform r name s)
  = (" " ++ flag r ClassName ++ " " ++ name)
      ++ args_segment platform (" " ++ flag r Args ++ " ") (classArgs s)
      ++ text_segment (" " ++ flag r Directory ++ " ") (codeDir s)
      ++ text_segment (" " ++ flag r ClassFileNameField ++ " ") (classFileName s).
Proof.
  unfold spec_tokens, args_token, text_token, args_segment, text_segment.
  cbn [render_tokens]. rewrite !render_tokens_app. f_equal.
  destruct (classArgs s), (codeDir s) as [d|], (classFileName s) as [f|];
    try destruct (1 <? length d)%nat; try destruct (1 <? length f)%nat;
    cbn [render_tokens render_token];
    rewrite ?append_assoc, ?append_nil_r; reflexivity.
Qed.

Lemma getMsgDispatcherCommand_tokens
  (platform : string) (tuner assessor advisor : option AlgoSpec)
  (multiPhase multiThread : bool) (command : string) :
  getMsgDispatcherCommand platform tuner assessor advisor multiPhase multiThread
  = Ok command ->
  command = base_command multiPhase multiThread
            ++ render_tokens (dispatcher_tokens platform tuner assessor advisor).
Proof.
  unfold getMsgDispatcherCommand, dispatcher_tokens, base_command.
  destruct advisor as [a|], tuner as [t|], assessor as [s|];
    cbv beta iota delta [truthy orb andb negb]; try discriminate;
    try (destruct (className s) as [name|]);
    destruct multiPhase, multiThread; cbv beta iota zeta.
  all: rewrite ?render_tokens_app, ?render_spec_tokens.
  all: repeat
         match goal with
         | |- context [match classFileName ?x with _ => _ end] =>
             let H := fresh in
             pose proof (fun c fa fd ff => optional_steps platform c fa fd ff x) as H;
             cbv zeta in H; rewrite H; clear H
         end.
  all: intros [= <-].
  all: cbn [flag role_name field_suffix append render_tokens];
    rewrite ?append_assoc, ?append_nil_r; cbn [append]; reflexivity.
Qed.

Lemma getMsgDispatcherCommand_cases
  (platform : string) (tuner assessor advisor : option AlgoSpec)
  (multiPhase multiThread : bool) :
  let r := getMsgDispatcherCommand platform tuner assessor advisor
             multiPhase multiThread in
  match advisor, tuner, assessor with
  | Some _, Some _, _ | Some _, None, Some _ => r = Throw (Error msg_both)
  | None, None, _ => r = Throw (Error msg_neither)
  | Some _, None, None | None, Some _, _ => exists command, r = Ok command
  end.
Proof.
  unfold getMsgDispatcherCommand.
  destruct advisor as [a|], tuner as [t|], assessor as [s|];
    cbv beta iota zeta delta [truthy orb andb negb]; try reflexivity;
    try (destruct (className s)); eexists; reflexivity.
Qed.

(** C3.  The builder raises the configuration error exactly when an advisor
    comes together with a tuner or an assessor, or when neither a tuner nor
    an advisor is given; it raises no other error, and in every other case
    it returns a command line. *)
Theorem getMsgDispatcherCommand_validation
  (platform : string) (tuner assessor advisor : option AlgoSpec)
  (multiPhase multiThread : bool) :
  let r := getMsgDispatcherCommand platform tuner assessor advisor
             multiPhase multiThread in
  let refused :=
    ((specified tuner \/ specified assessor) /\ specified advisor)
    \/ (tuner = None /\ advisor = None) in
  ((exists e, r = Throw e /\ InvalidConfiguration e) <-> refused)
  /\ (~ refused -> exists command, r = Ok command)
  /\ (forall e, r = Throw e -> InvalidConfiguration e).
Proof.
  cbv zeta. unfold specified, InvalidConfiguration.
  pose proof (getMsgDispatcherCommand_cases platform tuner assessor advisor
                multiPhase multiThread) as H. cbv zeta in H.
  destruct advisor as [a|], tuner as [t|], assessor as [s|].
  1-3, 7-8:
    rewrite H; repeat split;
    [ intros _; show_refused
    | intros _; eexists; split; [reflexivity | tauto]
    | intros N; exfalso; apply N; show_refused
    | intros e [= <-]; tauto ].
  all: destruct H as [command H]; rewrite H; repeat split;
    [ intros (e & He & _); discriminate He
    | intros [[[C|C] D]|[C D]]; congruence
    | intros _; now exists command
    | intros e He; discriminate He ].
Qed.

(** *** Encoding of argument payloads *)

Lemma In_text_token (r r' : role) (f f' : field) (x : option string) (v : string) :
  In (r', f', v) (text_token r f x) <->
  r' = r /\ f' = f /\ x = Some v /\ (1 < length v)%nat.
Proof.
  unfold text_token. destruct x as [d|]; cbn [In].
  - destruct (Nat.ltb_spec 1 (length d)) as [L|L]; cbn [In].
    + split.
      * intros [[= <- <- <-]|[]]. auto.
      * intros (-> & -> & [= ->] & _). now left.
    + split; [intros [] | intros (_ & _ & [= ->] & L'); lia].
  - split; [intros [] | intros (_ & _ & [=] & _)].
Qed.

Lemma In_args_token (platform : string) (r r' : role) (f' : field)
  (x : option json) (v : string) :
  In (r', f', v) (args_token platform r x) <->
  r' = r /\ f' = Args /\ exists a, x = Some a /\ v = crossPlatformStringify platform a.
Proof.
  unfold args_token. destruct x as [a|]; cbn [In].
  - split.
    + intros [[= <- <- <-]|[]]. eauto.
    + intros (-> & -> & a' & [= <-] & ->). now left.
  - split; [intros [] | intros (_ & _ & a & [=] & _)].
Qed.

Lemma In_spec_tokens (platform : string) (r r' : role) (name : string)
  (s : AlgoSpec) (f : field) (v : string) :
  In (r', f, v) (spec_tokens platform r name s) <->
  r' = r /\
  match f with
  | ClassName => v = name
  | Args => exists a, classArgs s = Some a /\ v = crossPlatformStringify platform a
  | Directory => codeDir s = Some v /\ (1 < length v)%nat
  | ClassFileNameField => classFileName s = Some v /\ (1 < length v)%nat
  end.
Proof.
  unfold spec_tokens. cbn [In].
  rewrite !in_app_iff, In_args_token, !In_text_token.
  split.
  - intros [[= <- <- <-]|[(-> & -> & H)|[(-> & -> & H)|(-> & -> & H)]]]; auto.
  - intros [-> H]. destruct f.
    + left. now subst.
    + right; left. auto.
    + right; right; left. tauto.
    + right; right; right. tauto.
Qed.

(** C6.  [crossPlatformStringify] encodes a payload once on [win32] and
    twice elsewhere, where decoding the token once gives back the single
    encoding; and whenever the builder returns a command line, the value of
    each [--<role>_args] option in it is [crossPlatformStringify] of that
    role's [classArgs]. *)
Theorem crossPlatformStringify_levels (platform : string) :
  (forall args : json,
     crossPlatformStringify platform args
     = encode_levels (if platform =? "win32" then 1 else 2) args)
  /\ (forall args : json,
        platform <> "win32" ->
        JSON_parse_string (crossPlatformStringify platform args)
        = Some (JSON_stringify args))
  /\ (forall (tuner assessor advisor : option AlgoSpec)
             (multiPhase multiThread : bool) (command : string),
        getMsgDispatcherCommand platform tuner assessor advisor
          multiPhase multiThread = Ok command ->
        command = base_command multiPhase multiThread
                  ++ render_tokens
                       (dispatcher_tokens platform tuner assessor advisor)
        /\ forall (r : role) (v : string),
             In (r, Args, v) (dispatcher_tokens platform tuner assessor advisor) ->
             exists s a,
               spec_of r tuner assessor advisor = Some s
               /\ classArgs s = Some a
               /\ v = crossPlatformStringify platform a).
Proof.
  split; [|split].
  - intros args. unfold crossPlatformStringify, encode_levels.
    destruct (platform =? "win32"); reflexivity.
  - intros args Hp. unfold crossPlatformStringify.
    apply String.eqb_neq in Hp. rewrite Hp. apply JSON_parse_string_quote.
  - intros tuner assessor advisor multiPhase multiThread command Hok.
    split; [now apply getMsgDispatcherCommand_tokens|].
    intros r v.
    pose proof (getMsgDispatcherCommand_cases platform tuner assessor advisor
                  multiPhase multiThread) as Hc. cbv zeta in Hc.
    unfold dispatcher_tokens.
    destruct advisor as [a|].
    + destruct tuner; [congruence|]. destruct assessor; [congruence|].
      rewrite In_spec_tokens. intros (-> & x & Hx & ->). now exists a, x.
    + destruct tuner as [t|]; [|intros []].
      rewrite in_app_iff, In_spec_tokens.
      intros [(-> & x & Hx & ->)|H]; [now exists t, x|].
      destruct assessor as [s|]; [|destruct H].
      destruct (className s); [|destruct H].
      apply In_spec_tokens in H as (-> & x & Hx & ->). now exists s, x.
Qed.

Lemma crossPlatformStringify_levels_witness :
  getMsgDispatcherCommand "linux"
    (Some (mkAlgoSpec (Some "TPE") (Some (JObj [("optimize_mode", JStr "maximize")]))
                      None None))
    None None false false
  = Ok ("python3 -m nni --tuner_class_name TPE --tuner_args "
          ++ crossPlatformStringify "linux" (JObj [("optimize_mode", JStr "maximize")]))
  /\ JSON_parse_string
       (crossPlatformStringify "linux" (JObj [("optimize_mode", JStr "maximize")]))
     = Some (JSON_stringify (JObj [("optimize_mode", JStr "maximize")])).
Proof.
  split; [reflexivity|].
  apply (crossPlatformStringify_levels "linux"). discriminate.
Defined.

(** *** Optional fields *)

(** Against C8 as it is stated: an assessor that gives a code directory of
    six characters but no class name.  The directory is present and longer
    than one character, and the command line does not carry it. *)
Lemma optional_field_of_unnamed_assessor :
  getMsgDispatcherCommand "linux" (Some tuner_T) (Some assessor_unnamed) None
    false false
  = Ok "python3 -m nni --tuner_class_name T"
  /\ ~ (shows "python3 -m nni --tuner_class_name T"
              (Assessor, Directory, "/tmp/a") = true
        <-> codeDir assessor_unnamed = Some "/tmp/a"
            /\ (1 < length "/tmp/a")%nat).
Proof.
  split; [reflexivity|].
  intros [_ H]. assert (E : codeDir assessor_unnamed = Some "/tmp/a"
                            /\ (1 < length "/tmp/a")%nat)
    by (split; [reflexivity | cbn; lia]).
  apply H in E. vm_compute in E. discriminate E.
Qed.

(** C8, as the code has it.  In a command line the builder returns, the
    options are those of [dispatcher_tokens], and a code directory or a
    class file name of a tuner, an assessor or an advisor is among them
    exactly when the field is present and longer than one character and,
    for an assessor, the assessor also gives its class name. *)
Theorem getMsgDispatcherCommand_optional_fields
  (platform : string) (tuner assessor advisor : option AlgoSpec)
  (multiPhase multiThread : bool) (command : string) :
  getMsgDispatcherCommand platform tuner assessor advisor multiPhase multiThread
  = Ok command ->
  command = base_command multiPhase multiThread
            ++ render_tokens (dispatcher_tokens platform tuner assessor advisor)
  /\ forall (r : role) (f : field) (v : string),
       f = Directory \/ f = ClassFileNameField ->
       (In (r, f, v) (dispatcher_tokens platform tuner assessor advisor)
        <-> exists s,
              spec_of r tuner assessor advisor = Some s
              /\ text_field f s = Some v
              /\ (1 < length v)%nat
              /\ (r = Assessor -> className s <> None)).
Proof.
  intros Hok. split; [now apply getMsgDispatcherCommand_tokens|].
  intros r f v Hf.
  pose proof (getMsgDispatcherCommand_cases platform tuner assessor advisor
                multiPhase multiThread) as Hc. cbv zeta in Hc.
  unfold dispatcher_tokens.
  destruct advisor as [a|].
  - destruct tuner; [congruence|]. destruct assessor; [congruence|].
    rewrite In_spec_tokens. split.
    + intros [-> H]. exists a. cbn [spec_of].
      destruct Hf as [-> | ->]; cbn [text_field]; intuition discriminate.
    + intros (s & Hs & Ht & Hl & _).
      destruct r; cbn [spec_of] in Hs; try discriminate Hs.
      injection Hs as <-. split; [reflexivity|].
      destruct Hf as [-> | ->]; cbn [text_field] in Ht; auto.
  - destruct tuner as [t|]; [|congruence].
    rewrite in_app_iff, In_spec_tokens. split.
    + intros [[-> H]|H].
      * exists t. cbn [spec_of].
        destruct Hf as [-> | ->]; cbn [text_field]; intuition discriminate.
      * destruct assessor as [s|]; [|destruct H].
        destruct (className s) as [name|] eqn:En; [|destruct H].
        apply In_spec_tokens in H as [-> H]. exists s. cbn [spec_of].
        rewrite En.
        destruct Hf as [-> | ->]; cbn [text_field]; intuition discriminate.
    + intros (s & Hs & Ht & Hl & Hn).
      destruct r; cbn [spec_of] in Hs; try discriminate Hs.
      * injection Hs as <-. left. split; [reflexivity|].
        destruct Hf as [-> | ->]; cbn [text_field] in Ht; auto.
      * subst assessor. right.
        destruct (className s) as [name|]; [|now destruct (Hn eq_refl)].
        apply In_spec_tokens. split; [reflexivity|].
        destruct Hf as [-> | ->]; cbn [text_field] in Ht; auto.
Qed.

Lemma getMsgDispatcherCommand_optional_fields_witness :
  "python3 -m nni --tuner_class_name T --assessor_class_name Medianstop --assessor_directory /tmp/a"
  = base_command false false
    ++ render_tokens
         (dispatcher_tokens "linux" (Some tuner_T) (Some assessor_named) None)
  /\ forall (r : role) (f : field) (v : string),
       f = Directory \/ f = ClassFileNameField ->
       (In (r, f, v)
           (dispatcher_tokens "linux" (Some tuner_T) (Some assessor_named) None)
        <-> exists s,
              spec_of r (Some tuner_T) (Some assessor_named) None = Some s
              /\ text_field f s = Some v
              /\ (1 < length v)%nat
              /\ (r = Assessor -> className s <> None)).
Proof.
  exact (getMsgDispatcherCommand_optional_fields "linux"
           (Some tuner_T) (Some assessor_named) None false false _ eq_refl).
Defined.

(** *** One group of options per command line *)

(** A command line the builder returns is the base command followed by
    its options, and the options are those of the advisor alone, or those
    of the tuner and the assessor alone; the class of every role it
    carries options for is named. *)
Theorem getMsgDispatcherCommand_groups
  (platform : string) (tuner assessor advisor : option AlgoSpec)
  (multiPhase multiThread : bool) (command : string) :
  getMsgDispatcherCommand platform tuner assessor advisor multiPhase multiThread
  = Ok command ->
  exists tokens : list token,
    command = base_command multiPhase multiThread ++ render_tokens tokens
    /\ tokens = dispatcher_tokens platform tuner assessor advisor
    /\ (if truthy advisor
        then forall r f v, In (r, f, v) tokens -> r = Advisor
        else forall r f v, In (r, f, v) tokens -> r = Tuner \/ r = Assessor)
    /\ (forall r f v, In (r, f, v) tokens ->
                      exists name, In (r, ClassName, name) tokens)
    /\ (exists name, In (if truthy advisor then Advisor else Tuner,
                         ClassName, name) tokens).
Proof.
  intros Hok.
  exists (dispatcher_tokens platform tuner assessor advisor).
  split; [exact (getMsgDispatcherCommand_tokens _ _ _ _ _ _ _ Hok)|].
  split; [reflexivity|].
  pose proof (getMsgDispatcherCommand_cases platform tuner assessor advisor
                multiPhase multiThread) as Hc. cbv zeta in Hc.
  unfold dispatcher_tokens.
  destruct advisor as [a|]; cbn [truthy].
  - split; [|split].
    + intros r f v H. now apply In_spec_tokens in H as [-> _].
    + intros r f v H. apply In_spec_tokens in H as [-> _].
      eexists. apply In_spec_tokens. split; reflexivity.
    + eexists. apply In_spec_tokens. split; reflexivity.
  - destruct tuner as [t|]; [|congruence].
    split; [|split].
    + intros r f v H. apply in_app_iff in H as [H|H].
      * apply In_spec_tokens in H as [-> _]. now left.
      * destruct assessor as [s|]; [|destruct H].
        destruct (className s); [|destruct H].
        apply In_spec_tokens in H as [-> _]. now right.
    + intros r f v H. apply in_app_iff in H as [H|H].
      * apply In_spec_tokens in H as [-> _].
        eexists. apply in_app_iff. left. apply In_spec_tokens.
        split; reflexivity.
      * destruct assessor as [s|]; [|destruct H].
        destruct (className s) as [name|]; [|destruct H].
        apply In_spec_tokens in H as [-> _].
        exists name. apply in_app_iff. right. apply In_spec_tokens.
        split; reflexivity.
    + eexists. apply in_app_iff. left. apply In_spec_tokens.
      split; reflexivity.
Qed.

Lemma getMsgDispatcherCommand_groups_witness :
  exists tokens : list token,
    "python3 -m nni --tuner_class_name T --assessor_class_name Medianstop --assessor_directory /tmp/a"
    = base_command false false ++ render_tokens tokens
    /\ tokens = dispatcher_tokens "linux" (Some tuner_T) (Some assessor_named) None
    /\ (forall r f v, In (r, f, v) tokens -> r = Tuner \/ r = Assessor)
    /\ (forall r f v, In (r, f, v) tokens ->
                      exists name, In (r, ClassName, name) tokens)
    /\ (exists name, In (Tuner, ClassName, name) tokens).
Proof.
  exact (getMsgDispatcherCommand_groups "linux" (Some tuner_T)
           (Some assessor_named) None false false _ eq_refl).
Defined.

(** ** Cached host address *)

Lemma cache_hit (os : nat -> option (list NetworkInterfaceInfo)) (st : HostState) :
  cachedipv4Address st <> "" ->
  getIPV4Address os st = (st, Ok (cachedipv4Address st)).
Proof.
  intros H. unfold getIPV4Address.
  destruct (cachedipv4Address st) as [|c r]; [contradiction|]. reflexivity.
Qed.

Lemma firstIPv4_first (items : list NetworkInterfaceInfo)
  (item : NetworkInterfaceInfo) :
  firstIPv4 items = Some item ->
  exists before after,
    items = (before ++ item :: after)%list
    /\ Forall (fun i => family i <> "IPv4") before
    /\ family item = "IPv4".
Proof.
  induction items as [|i rest IH]; cbn [firstIPv4]; [discriminate|].
  destruct (family i =? "IPv4") eqn:E.
  - intros [= ->]. exists [], rest. repeat split.
    + constructor.
    + now apply String.eqb_eq.
  - intros H. destruct (IH H) as (before & after & -> & F & Hf).
    exists (i :: before), after. repeat split.
    + constructor; [|exact F]. now apply String.eqb_neq.
    + exact Hf.
Qed.

Lemma firstIPv4_at (before after : list NetworkInterfaceInfo)
  (item : NetworkInterfaceInfo) :
  Forall (fun i => family i <> "IPv4") before ->
  family item = "IPv4" ->
  firstIPv4 (before ++ item :: after) = Some item.
Proof.
  intros F Hf. induction F as [|i before Hi F IH]; cbn [List.app firstIPv4].
  - now rewrite Hf.
  - apply String.eqb_neq in Hi. now rewrite Hi.
Qed.

(** With an address in the cache, calls return it and change nothing. *)
Lemma getIPV4Address_calls_cached (st : HostState) :
  cachedipv4Address st <> "" ->
  forall later : list (nat -> option (list NetworkInterfaceInfo)),
    getIPV4Address_calls later st
    = (st, map (fun _ => Ok (cachedipv4Address st)) later).
Proof.
  intros H later.
  induction later as [|os' rest IH]; cbn [getIPV4Address_calls map]; [reflexivity|].
  rewrite cache_hit by exact H. now rewrite IH.
Qed.

(** The claim as it is written fails where the operating system reports
    an empty address for the first [IPv4] entry: the call succeeds with
    the empty string, and the call after it inspects the interfaces
    again. *)
Lemma getIPV4Address_empty_address :
  getIPV4Address eth0_blank initialHost = (mkHost "" 2, Ok "")
  /\ getIPV4Address eth0_blank (mkHost "" 2) = (mkHost "" 4, Ok "").
Proof. split; reflexivity. Qed.

(** C10.  A call that finds nothing cached, [eth0] reported and an [IPv4]
    entry in it returns the address of the first such entry, after two
    inspections of the interfaces, and caches it.  Whenever a call
    succeeds with address [a], [a] is what the cache holds; if [a] is not
    empty, every later call, whatever the operating system would report
    by then, returns [a] and leaves the state as it is: the cache keeps
    [a] and the count of inspections does not move.  A call succeeds with
    the empty string only when that is the address the operating system
    reports for the first [IPv4] entry, and then nothing is cached. *)
Theorem getIPV4Address_memoized
  (os : nat -> option (list NetworkInterfaceInfo)) (st : HostState) :
  (forall before item after,
      cachedipv4Address st = "" ->
      os (inspections st) <> None ->
      os (S (inspections st)) = Some (before ++ item :: after)%list ->
      Forall (fun i => family i <> "IPv4") before ->
      family item = "IPv4" ->
      getIPV4Address os st
      = (mkHost (address item) (S (S (inspections st))), Ok (address item)))
  /\ (forall (st1 : HostState) (a : string),
         getIPV4Address os st = (st1, Ok a) ->
         cachedipv4Address st1 = a
         /\ (a <> "" ->
             forall later : list (nat -> option (list NetworkInterfaceInfo)),
               getIPV4Address_calls later st1
               = (st1, map (fun _ => Ok a) later))
         /\ (a = "" ->
             exists before item after,
               os (S (inspections st)) = Some (before ++ item :: after)%list
               /\ Forall (fun i => family i <> "IPv4") before
               /\ family item = "IPv4"
               /\ address item = ""
               /\ st1 = mkHost "" (S (S (inspections st))))).
Proof.
  split.
  - intros before item after Hc H0 H1 F Hf.
    unfold getIPV4Address, networkInterfaces_eth0. rewrite Hc.
    cbn [truthy_string andb cachedipv4Address inspections].
    destruct (os (inspections st)); [|now elim H0].
    rewrite H1, (firstIPv4_at _ _ _ F Hf). reflexivity.
  - intros st1 a Hcall.
    destruct (cachedipv4Address st) as [|c r] eqn:Hc.
    + revert Hcall. unfold getIPV4Address, networkInterfaces_eth0. rewrite Hc.
      cbn [truthy_string andb cachedipv4Address inspections].
      destruct (os (inspections st)); [|discriminate].
      destruct (os (S (inspections st))) as [items|]; [|discriminate].
      destruct (firstIPv4 items) as [item|] eqn:F; [|discriminate].
      intros [= <- <-]. split; [reflexivity|]. split.
      * intros Ha later.
        exact (getIPV4Address_calls_cached
                 (mkHost (address item) (S (S (inspections st)))) Ha later).
      * intros Ha.
        destruct (firstIPv4_first _ _ F) as (before & after & -> & Hb & Hf).
        exists before, item, after. rewrite Ha. repeat split; assumption.
    + assert (cachedipv4Address st <> "") as Hne by (rewrite Hc; discriminate).
      rewrite (cache_hit os st Hne) in Hcall. injection Hcall as <- <-.
      split; [reflexivity|]. split.
      * intros _ later. exact (getIPV4Address_calls_cached st Hne later).
      * intros Ha. now elim Hne.
Qed.

Lemma getIPV4Address_memoized_witness :
  getIPV4Address eth0_example initialHost = (mkHost "10.0.0.4" 2, Ok "10.0.0.4")
  /\ forall later : list (nat -> option (list NetworkInterfaceInfo)),
       getIPV4Address_calls later (mkHost "10.0.0.4" 2)
       = (mkHost "10.0.0.4" 2, map (fun _ => Ok "10.0.0.4") later).
Proof.
  destruct (getIPV4Address_memoized eth0_example initialHost) as [A B].
  split.
  - apply (A [mkInterface "IPv6" "fe80::1"] (mkInterface "IPv4" "10.0.0.4") []).
    + reflexivity.
    + discriminate.
    + reflexivity.
    + constructor; [discriminate | constructor].
    + reflexivity.
  - apply (B (mkHost "10.0.0.4" 2) "10.0.0.4" eq_refl). discriminate.
Defined.

(** The first call does inspect the interfaces, twice; a host without an
    IPv4 entry, or without [eth0], makes it fail and caches nothing. *)
Example getIPV4Address_first_call :
  getIPV4Address eth0_example initialHost = (mkHost "10.0.0.4" 2, Ok "10.0.0.4").
Proof. reflexivity. Qed.

Example getIPV4Address_no_eth0 :
  getIPV4Address (fun _ => None) initialHost
  = (mkHost "" 1,
     Throw (Error
       "getIPV4Address() failed because os.networkInterfaces().eth0 is undefined.")).
Proof. reflexivity. Qed.

(** ** Timeout-Bounded Prober *)

Lemma timeout_is_not_notfound (d d' : string) : ~ NotFound d (Error (msg_timeout d')).
Proof. unfold NotFound, msg_timeout, msg_notfound. cbn. discriminate. Qed.

(** C9.  [countFilesRecursively] fails with the not-found error exactly
    when [fs.existsSync] says, at the call, that the path does not exist;
    when it exists, neither the call nor the promise it returns fails with
    that error. *)
Theorem countFilesRecursively_NotFound_iff
  (existsSync : string -> bool) (exec : string -> ExecOutcome)
  (directory : string) (timeoutMilliSeconds : option nat) :
  fails_with (countFilesRecursively existsSync exec directory timeoutMilliSeconds)
             (NotFound directory)
  <-> existsSync directory = false.
Proof.
  unfold countFilesRecursively.
  destruct (existsSync directory); cbn [negb fails_with].
  - split; [|discriminate].
    destruct (exec _) as [t out| |]; cbn [race final fails_with].
    + destruct (t <=? 5000)%N; cbn; [tauto|].
      intros H. now apply timeout_is_not_notfound in H.
    + intros H. now apply timeout_is_not_notfound in H.
    + intros H. now apply timeout_is_not_notfound in H.
  - split; [reflexivity|]. intros _. reflexivity.
Qed.

Lemma wc_l_output_parse (pad n : nat) :
  parseInt (wc_l_output pad n) = Some (Z.of_nat n).
Proof.
  unfold wc_l_output. apply parseInt_decimal; cbn; [reflexivity | split; reflexivity].
Qed.

Lemma wc_l_output_truthy (pad n : nat) : truthy_string (wc_l_output pad n) = true.
Proof.
  unfold wc_l_output. destruct pad; [|reflexivity].
  destruct (decimal_shape n) as (c & r & E & _). cbn [blanks append].
  now rewrite E.
Qed.

(** C5.  What the prober resolves with when the directory exists and the
    enumeration command ends before the deadline, reporting [n] files:
    [n] itself when [n] is positive, but [-1] when [n] is 0 (the count 0
    is falsy, so the initial [-1] is kept). *)
Theorem countFilesRecursively_count
  (existsSync : string -> bool) (exec : string -> ExecOutcome)
  (directory : string) (timeoutMilliSeconds : option nat)
  (pad n : nat) (t : N) :
  existsSync directory = true ->
  exec ("find " ++ directory ++ " -type f | wc -l") = Exits t (wc_l_output pad n) ->
  (t < 5000)%N ->
  countFilesRecursively existsSync exec directory timeoutMilliSeconds
  = Ok (Fulfilled (if (n =? 0)%nat then (-1)%Z else Z.of_nat n)).
Proof.
  intros Hdir Hexec Ht. unfold countFilesRecursively.
  rewrite Hdir, Hexec. cbn [negb].
  rewrite wc_l_output_parse, wc_l_output_truthy. cbn [andb race final].
  assert (Hle : (t <=? 5000)%N = true) by (apply N.leb_le; lia).
  rewrite Hle. cbn [truthy_number].
  destruct n as [|k]; [reflexivity|].
  replace (Z.of_nat (S k) =? 0)%Z with false by (symmetry; apply Z.eqb_neq; lia).
  reflexivity.
Qed.

(** The empty directory: the prober answers [-1], not [0]. *)
Lemma countFilesRecursively_count_witness :
  countFilesRecursively (fun _ => true) (fun _ => Exits 10 (wc_l_output 0 0))
                        "/tmp/empty" None
  = Ok (Fulfilled (-1)%Z).
Proof.
  exact (countFilesRecursively_count
           (fun _ => true) (fun _ => Exits 10 (wc_l_output 0 0))
           "/tmp/empty" None 0 0 10 eq_refl eq_refl eq_refl).
Defined.

Example countFilesRecursively_four_files :
  countFilesRecursively (fun _ => true) (fun _ => Exits 10 (wc_l_output 0 4))
                        "/tmp/four" None
  = Ok (Fulfilled 4%Z).
Proof. reflexivity. Qed.

Example countFilesRecursively_slow :
  fails_with
    (countFilesRecursively (fun _ => true) (fun _ => Exits 6000 (wc_l_output 0 4))
                           "/tmp/four" None)
    (Timeout "/tmp/four").
Proof. reflexivity. Qed.

(** The deadline: when the directory exists and the enumeration command
    has not ended after 5 seconds, or fails, or never ends, the promise is
    rejected with the timeout error, which carries the path. *)
Theorem countFilesRecursively_timeout
  (existsSync : string -> bool) (exec : string -> ExecOutcome)
  (directory : string) (timeoutMilliSeconds : option nat) :
  existsSync directory = true ->
  match exec ("find " ++ directory ++ " -type f | wc -l") with
  | Exits t _ => (5000 < t)%N
  | Fails _ _ | Hangs => True
  end ->
  countFilesRecursively existsSync exec directory timeoutMilliSeconds
  = Ok (Rejected (Error ("Timeout: path " ++ directory ++ " has too many files"))).
Proof.
  intros Hdir Hslow. unfold countFilesRecursively. rewrite Hdir. cbn [negb].
  destruct (exec _) as [t out| |]; cbn [race final]; try reflexivity.
  assert (E : (t <=? 5000)%N = false) by (apply N.leb_gt; exact Hslow).
  now rewrite E.
Qed.

Lemma countFilesRecursively_timeout_witness :
  countFilesRecursively (fun _ => true) (fun _ => Hangs) "/data" None
  = Ok (Rejected (Error "Timeout: path /data has too many files")).
Proof.
  exact (countFilesRecursively_timeout (fun _ => true) (fun _ => Hangs)
           "/data" None eq_refl I).
Defined.

(** ** Process Supervisor: [getTunerProc] *)

(** C7.  On [win32] the command [python3] is spawned as the executable
    [python] with one argument, the empty string, although no token follows
    the first: the arguments are not the remaining tokens. *)
Lemma getTunerProc_without_blank :
  split " " (substituted "python3") = ["python"]
  /\ args (getTunerProc "win32" unit unit "python3" tt "/tmp" tt) = [""]
  /\ getTunerProc "win32" unit unit "python3" tt "/tmp" tt
     <> spawn (hd "" (split " " (substituted "python3")))
              (tl (split " " (substituted "python3")))
              (mkSpawnOptions tt "/tmp" tt false).
Proof. repeat split; vm_compute; discriminate. Qed.

(** What [getTunerProc] does otherwise.  On [win32] every [python3] of the
    command is replaced by [python]; if a blank is left in the result, the
    text before the first blank is spawned, without a shell, with the
    pieces of the rest between single blanks as its arguments.  On every
    other platform the whole command is spawned as it is, with no
    argument, through a shell. *)
Theorem getTunerProc_spawn
  (StdioOptions Env : Type) (platform command : string)
  (stdio : StdioOptions) (newCwd : string) (newEnv : Env) :
  (platform = "win32" ->
   includes " " (substituted command) = true ->
   getTunerProc platform StdioOptions Env command stdio newCwd newEnv
   = spawn (hd "" (split " " (substituted command)))
           (tl (split " " (substituted command)))
           (mkSpawnOptions stdio newCwd newEnv false))
  /\ (platform <> "win32" ->
      getTunerProc platform StdioOptions Env command stdio newCwd newEnv
      = spawn command [] (mkSpawnOptions stdio newCwd newEnv true)).
Proof.
  unfold getTunerProc. split.
  - intros -> Hb. cbn [String.eqb Ascii.eqb Bool.eqb].
    fold (substituted command).
    destruct (first_blank _ Hb) as (a & b & E & Ha). rewrite E.
    unfold split_limit, split.
    rewrite (split_at_first_blank a b "" Ha). cbn [rev_string append firstn hd tl].
    now rewrite substr_past.
  - intros Hp. apply String.eqb_neq in Hp. now rewrite Hp.
Qed.

Lemma getTunerProc_spawn_witness :
  getTunerProc "win32" unit unit "python3 -m nni --tuner_class_name TPE" tt "/tmp" tt
  = spawn "python" ["-m"; "nni"; "--tuner_class_name"; "TPE"]
          (mkSpawnOptions tt "/tmp" tt false).
Proof.
  exact (proj1 (getTunerProc_spawn unit unit "win32"
                  "python3 -m nni --tuner_class_name TPE" tt "/tmp" tt)
               eq_refl eq_refl).
Defined.

Example getTunerProc_posix :
  getTunerProc "linux" unit unit "python3 -m nni --tuner_class_name TPE" tt "/tmp" tt
  = spawn "python3 -m nni --tuner_class_name TPE" []
          (mkSpawnOptions tt "/tmp" tt true).
Proof. reflexivity. Qed.

(** ** Process Supervisor: [isAlive] and [killPid] *)

(** Where [kill -0] is the probe, [isAlive] resolves with whether the
    probe succeeded; a process that is gone gives [false], not an error. *)
Theorem isAlive_posix
  (platform : string) (execSync : string -> result string)
  (exec : string -> ExecOutcome) (pid : nat) :
  platform <> "win32" ->
  isAlive platform execSync exec pid
  = match exec ("kill -0 " ++ decimal pid) with
    | Exits _ _ => Fulfilled true
    | Fails _ _ => Fulfilled false
    | Hangs => Pending
    end.
Proof.
  intros Hp. unfold isAlive. apply String.eqb_neq in Hp. rewrite Hp.
  destruct (exec _); reflexivity.
Qed.

Lemma isAlive_posix_witness :
  isAlive "linux" (fun _ => Ok "") no_such_process 42 = Fulfilled false.
Proof.
  apply (isAlive_posix "linux" (fun _ => Ok "") no_such_process 42).
  discriminate.
Defined.

(** C2.  The promise [killPid] returns is the promise of a deferred that
    nothing ever resolves or rejects: whatever becomes of the [kill]
    command, whether it finds the process or not, the promise stays
    pending.  It is true that it is never rejected; it is not true that it
    completes. *)
Theorem killPid_never_settles (exec : string -> ExecOutcome) (pid : nat) :
  killPid exec pid = Pending.
Proof. unfold killPid. destruct (exec _); reflexivity. Qed.

Example killPid_dead_process :
  killPid (fun _ => Fails 3 (Error "kill: (4242) - No such process")) 4242 = Pending
  /\ isAlive "linux" (fun _ => Ok "")
             (fun _ => Fails 3 (Error "kill: (4242) - No such process")) 4242
     = Fulfilled false.
Proof. split; reflexivity. Qed.

(** ** Script Materializer: the launcher scripts *)

Section Launched.

Variable path_join : list string -> string.
Variable localTrailConfig : TrialConfig.t.
Variable workingDirectory : string.
Variable variables : list (string * string).



Variable w : Shell.world.






(** A command that ends with status [n] and hands the shell back, and
    two files the shell can write. *)
Variable n : nat.
Hypothesis returns :
  Shell.exit_status w (TrialConfig.command localTrailConfig) = Some n.
Hypothesis stderr_writable :
  Shell.writable w (path_join [workingDirectory; "stderr"]) = true.
Hypothesis state_writable :
  Shell.writable w (path_join [workingDirectory; ".nni"; "state"]) = true.



End Launched.



(** The state files of the two launchers after a command that ends with
    status 3, and what is left when the command ends the shell ([exit 3]):
    no state file. *)
Example state_file_posix :
  Shell.run exits_with_3
    (Shell.launcher_posix posix_join mnist "/tmp/t1" [("NNI_PLATFORM", "local")])
  = Shell.Next
      (Shell.mkMachine (Some 0%nat) true "" 0 false
         [("/tmp/t1/.nni/state", "3 1700000000000" ++ chr LF);
          ("/tmp/t1/stderr", "")]).
Proof. reflexivity. Qed.

Example state_file_win32 :
  Shell.run exits_with_3
    (Shell.launcher_win32 win32_join mnist "C:\t1" [("NNI_PLATFORM", "local")])
  = Shell.Next
      (Shell.mkMachine None false "1700000000000" 2 false
         [("C:\t1\.nni\state", "2 1700000000000"); ("C:\t1\stderr", "")]).
Proof. reflexivity. Qed.

Example state_file_exit :
  Shell.run ends_the_shell
    (Shell.launcher_posix posix_join (TrialConfig.mk "exit 3" "/code") "/tmp/t1" [])
  = Shell.Over (Shell.mkMachine None true "" 0 false [("/tmp/t1/stderr", "")])
  /\ Shell.recorded_status ends_the_shell
       (Shell.launcher_posix posix_join (TrialConfig.mk "exit 3" "/code")
          "/tmp/t1" [])
       "/tmp/t1/.nni/state"
     = None.
Proof. split; reflexivity. Qed.

Example runScript_posix :
  runScript "linux" posix_join (fun _ => Exits 1 "") (fun _ _ _ => None)
            mnist "/tmp/t1" [("NNI_PLATFORM", "local")]
  = ([ RunCommand "mkdir -p /tmp/t1";
       RunCommand "mkdir -p /tmp/t1/.nni";
       RunCommand "touch /tmp/t1/.nni/metrics";
       WriteFile "/tmp/t1/run.sh"
         (join (chr LF)
            (map Shell.render
               (Shell.launcher_posix posix_join mnist "/tmp/t1"
                  [("NNI_PLATFORM", "local")])))
         511 ],
     Fulfilled ["bash"; "run.sh"]).
Proof. reflexivity. Qed.

(** ** Script Materializer: what [runScript] does *)



(** ** parseArg *)

Lemma existsb_eqb_In (arg : string) (names : list string) :
  existsb (String.eqb arg) names = true <-> In arg names.
Proof.
  rewrite existsb_exists. split.
  - intros [x [Hx E]]. apply String.eqb_eq in E. now subst.
  - intros H. exists arg. split; [exact H | apply String.eqb_refl].
Qed.

Lemma parseArg_loop_eq (names : list string) (arg value : string)
  (rest : list string) :
  parseArg_loop names (arg :: value :: rest)
  = if existsb (String.eqb arg) names then value
    else parseArg_loop names (value :: rest).
Proof. reflexivity. Qed.

Lemma parseArg_loop_match (names : list string) (k : nat) :
  forall rest : list string,
    (k + 1 < List.length rest)%nat ->
    In (nth k rest "") names ->
    (forall j, (j < k)%nat -> ~ In (nth j rest "") names) ->
    parseArg_loop names rest = nth (k + 1) rest "".
Proof.
  induction k as [|k IH]; intros rest Hlen Hin Hfirst.
  - destruct rest as [|arg [|value rest]]; cbn [List.length] in Hlen; try lia.
    rewrite parseArg_loop_eq. cbn [nth Nat.add].
    cbn [nth] in Hin. apply existsb_eqb_In in Hin. now rewrite Hin.
  - destruct rest as [|arg [|value rest]]; cbn [List.length] in Hlen; try lia.
    rewrite parseArg_loop_eq.
    destruct (existsb (String.eqb arg) names) eqn:E.
    + apply existsb_eqb_In in E. exfalso. apply (Hfirst 0%nat); [lia | exact E].
    + change (nth (S k + 1) (arg :: value :: rest) "")
        with (nth (k + 1) (value :: rest) "").
      apply IH.
      * cbn [List.length]. lia.
      * exact Hin.
      * intros j Hj. apply (Hfirst (S j)). lia.
Qed.

Lemma parseArg_loop_none (names : list string) :
  forall rest : list string,
    (forall j, (j + 1 < List.length rest)%nat -> ~ In (nth j rest "") names) ->
    parseArg_loop names rest = "".
Proof.
  induction rest as [|arg rest IH]; intros H; [reflexivity|].
  destruct rest as [|value rest]; [reflexivity|].
  rewrite parseArg_loop_eq.
  destruct (existsb (String.eqb arg) names) eqn:E.
  - apply existsb_eqb_In in E. exfalso.
    apply (H 0%nat); [cbn [List.length]; lia | exact E].
  - apply IH. intros j Hj. apply (H (S j)). cbn [List.length] in *. lia.
Qed.

(** [parseArg] returns the entry of [process.argv] that follows the
    first entry, from index 2 on and before the last one, that is one of
    the names. *)
Theorem parseArg_first_match (argv names : list string) (i : nat) :
  (2 <= i)%nat -> (i + 1 < List.length argv)%nat ->
  In (nth i argv "") names ->
  (forall j, (2 <= j < i)%nat -> ~ In (nth j argv "") names) ->
  parseArg argv names = nth (i + 1) argv "".
Proof.
  intros Hi Hlen Hin Hfirst. unfold parseArg.
  destruct argv as [|a0 [|a1 rest]]; cbn [List.length] in Hlen; try lia.
  replace (4 <=? List.length (a0 :: a1 :: rest))%nat with true
    by (symmetry; apply Nat.leb_le; cbn [List.length]; lia).
  cbn [skipn].
  destruct i as [|[|k]]; try lia.
  change (nth (S (S k) + 1) (a0 :: a1 :: rest) "") with (nth (k + 1) rest "").
  apply parseArg_loop_match.
  - lia.
  - exact Hin.
  - intros j Hj. apply (Hfirst (S (S j))). lia.
Qed.

Lemma parseArg_first_match_witness :
  parseArg ["node"; "main.js"; "--mode"; "local"; "--port"; "8080"]
           ["--port"; "-p"] = "8080".
Proof.
  apply (parseArg_first_match
           ["node"; "main.js"; "--mode"; "local"; "--port"; "8080"]
           ["--port"; "-p"] 4).
  - lia.
  - cbn [List.length]. lia.
  - cbn. left. reflexivity.
  - intros j Hj.
    assert (j = 2 \/ j = 3)%nat as [-> | ->] by lia;
      cbn; intros [H | [H | []]]; discriminate H.
Defined.

(** [parseArg] returns the empty string when no entry of
    [process.argv] from index 2 on, the last one apart, is one of the
    names: the first two entries are never taken for a name, nor is the
    last one, which no value follows. *)
Theorem parseArg_no_match (argv names : list string) :
  (forall j, (2 <= j)%nat -> (j + 1 < List.length argv)%nat ->
             ~ In (nth j argv "") names) ->
  parseArg argv names = "".
Proof.
  intros H. unfold parseArg.
  destruct (4 <=? List.length argv)%nat; [|reflexivity].
  apply parseArg_loop_none. intros j Hj.
  destruct argv as [|a0 [|a1 rest]]; cbn [skipn List.length] in *; try lia.
  apply (H (S (S j))); cbn [List.length]; lia.
Qed.

Lemma parseArg_no_match_witness :
  parseArg ["--port"; "main.js"; "--mode"; "--port"] ["--port"] = "".
Proof.
  apply parseArg_no_match. intros j H2 Hlen. cbn [List.length] in Hlen.
  assert (j = 2)%nat as -> by lia.
  cbn. intros [H | []]. discriminate H.
Defined.

(** ** generateParamFileName *)

Lemma length_append (a b : string) :
  length (a ++ b) = (length a + length b)%nat.
Proof. induction a as [|c a IH]; cbn; [reflexivity | now rewrite IH]. Qed.

Lemma append_cancel_r (s a b : string) : a ++ s = b ++ s -> a = b.
Proof.
  revert b. induction a as [|c a IH]; intros [|d b] H.
  - reflexivity.
  - exfalso. apply (f_equal length) in H. cbn [append] in H.
    cbn [length] in H. rewrite length_append in H. lia.
  - exfalso. apply (f_equal length) in H. cbn [append] in H.
    cbn [length] in H. rewrite length_append in H. lia.
  - cbn [append] in H. injection H as -> H. f_equal. now apply IH.
Qed.

Lemma string_of_uint_inj (d e : Decimal.uint) :
  NilEmpty.string_of_uint d = NilEmpty.string_of_uint e -> d = e.
Proof.
  intros H. apply (f_equal NilEmpty.uint_of_string) in H.
  rewrite !NilEmpty.usu in H. now injection H.
Qed.

Lemma decimal_inj (n m : nat) : decimal n = decimal m -> n = m.
Proof.
  unfold decimal. intros H. apply string_of_uint_inj in H.
  now apply Unsigned.to_uint_inj.
Qed.

(** Two parameter sets are given the same file name by
    [generateParamFileName] only if they have the same index. *)
Theorem generateParamFileName_injective
  (h1 h2 : HyperParameters.t) (name : string) :
  generateParamFileName (Some h1) = Some name ->
  generateParamFileName (Some h2) = Some name ->
  HyperParameters.index h1 = HyperParameters.index h2.
Proof.
  destruct h1 as [i1], h2 as [i2]. unfold generateParamFileName.
  cbn [HyperParameters.index].
  destruct (0 <=? i1)%Z eqn:P1; [|discriminate].
  destruct (0 <=? i2)%Z eqn:P2; [|discriminate].
  apply Z.leb_le in P1, P2. cbn [negb]. cbv zeta.
  destruct (i1 =? 0)%Z eqn:E1; destruct (i2 =? 0)%Z eqn:E2;
    intros H1 H2; rewrite <- H2 in H1; clear H2.
  - apply Z.eqb_eq in E1, E2. congruence.
  - discriminate H1.
  - discriminate H1.
  - injection H1 as H1.
    change ("parameter_" ++ decimal (Z.to_nat i1) ++ ".cfg")
      with ("parameter_" ++ (decimal (Z.to_nat i1) ++ ".cfg")) in H1.
    cbn [append] in H1.
    assert (decimal (Z.to_nat i1) ++ ".cfg" = decimal (Z.to_nat i2) ++ ".cfg") as H.
    { repeat match type of H1 with String _ _ = String _ _ => injection H1 as H1 end.
      exact H1. }
    apply append_cancel_r, decimal_inj in H. lia.
Qed.

Lemma generateParamFileName_injective_witness :
  HyperParameters.index (HyperParameters.mk 3)
  = HyperParameters.index (HyperParameters.mk 3).
Proof.
  apply (generateParamFileName_injective
           (HyperParameters.mk 3) (HyperParameters.mk 3) "parameter_3.cfg");
    reflexivity.
Defined.

(** ** The characters of an identifier *)

Lemma uniqueString_loop_length (n : nat) :
  forall (num : float) (codes : list float),
    List.length (uniqueString_loop n num codes) = (List.length codes + n)%nat.
Proof.
  induction n as [|k IH]; intros num codes; cbn [uniqueString_loop].
  - lia.
  - cbv zeta. rewrite IH, length_app. cbn [List.length]. lia.
Qed.

(** [uniqueString(len)] has [len] characters, whatever the random bytes
    are and however long it is. *)
Theorem uniqueString_length (randomBytes : nat -> list Byte.byte) (len : nat) :
  List.length (uniqueString randomBytes len) = len.
Proof.
  destruct len as [|k]; [reflexivity|].
  unfold uniqueString, String_fromCharCode. cbv zeta.
  rewrite length_map, uniqueString_loop_length. cbn [List.length]. lia.
Qed.

(** [charMap] sends the indices 0 to 61 to 62 different characters, all
    of them letters or digits, and the indices 0 to 51, which the first
    character of an identifier is drawn from, to the letters. *)
Theorem charMap_alphabet (j k : nat) :
  (j < 62)%nat -> (k < 62)%nat ->
  is_alnum (charCode k) = true
  /\ is_letter (charCode k) = (k <? 52)%nat
  /\ (charCode j = charCode k -> j = k).
Proof.
  intros Hj Hk.
  assert (forallb (fun k => is_alnum (charCode k)
                            && Bool.eqb (is_letter (charCode k)) (k <? 52)%nat)
            (seq 0 62) = true) as A by (vm_compute; reflexivity).
  assert (forallb (fun j =>
            forallb (fun k => implb (charCode j =? charCode k)%N (j =? k)%nat)
                    (seq 0 62))
            (seq 0 62) = true) as B by (vm_compute; reflexivity).
  assert (In j (seq 0 62)) as Ij by (apply in_seq; lia).
  assert (In k (seq 0 62)) as Ik by (apply in_seq; lia).
  rewrite forallb_forall in A, B.
  specialize (A k Ik). apply andb_true_iff in A. destruct A as [A1 A2].
  apply Bool.eqb_prop in A2.
  specialize (B j Ij). rewrite forallb_forall in B. specialize (B k Ik).
  repeat split; [exact A1 | exact A2 |].
  intros E. rewrite E, N.eqb_refl in B. cbn [implb] in B.
  now apply Nat.eqb_eq.
Qed.

Lemma charMap_alphabet_witness :
  is_alnum (charCode 61) = true
  /\ is_letter (charCode 61) = (61 <? 52)%nat
  /\ (charCode 0 = charCode 61 -> 0 = 61)%nat.
Proof. apply (charMap_alphabet 0 61); lia. Defined.

(** ** The host address, found and not found *)

(** A call of [getIPV4Address] that finds no address cached asks the
    operating system twice, and the address it returns is that of the
    first [IPv4] entry of [eth0] in the second answer; the entries before
    it are of other families. *)
Theorem getIPV4Address_first_IPv4
  (os : nat -> option (list NetworkInterfaceInfo)) (st st1 : HostState)
  (a : string) :
  cachedipv4Address st = "" ->
  getIPV4Address os st = (st1, Ok a) ->
  exists before item after,
    os (S (inspections st)) = Some (before ++ item :: after)%list
    /\ Forall (fun i => family i <> "IPv4") before
    /\ family item = "IPv4"
    /\ address item = a
    /\ inspections st1 = S (S (inspections st)).
Proof.
  intros Hc. unfold getIPV4Address, networkInterfaces_eth0. rewrite Hc.
  cbn [truthy_string andb cachedipv4Address inspections].
  destruct (os (inspections st)); [|discriminate].
  destruct (os (S (inspections st))) as [items|]; [|discriminate].
  destruct (firstIPv4 items) as [item|] eqn:F; [|discriminate].
  intros [= <- <-].
  destruct (firstIPv4_first _ _ F) as (before & after & -> & Hb & Hf).
  exists before, item, after. cbn [inspections]. repeat split; assumption.
Qed.

Lemma getIPV4Address_first_IPv4_witness :
  exists before item after,
    eth0_example 1 = Some (before ++ item :: after)%list
    /\ Forall (fun i => family i <> "IPv4") before
    /\ family item = "IPv4"
    /\ address item = "10.0.0.4"
    /\ inspections (mkHost "10.0.0.4" 2) = 2%nat.
Proof.
  apply (getIPV4Address_first_IPv4 eth0_example initialHost); reflexivity.
Defined.

(** A call of [getIPV4Address] that fails had nothing cached and caches
    nothing: the call after it asks the operating system again. *)
Theorem getIPV4Address_failure
  (os : nat -> option (list NetworkInterfaceInfo)) (st st1 : HostState)
  (e : error) :
  getIPV4Address os st = (st1, Throw e) ->
  cachedipv4Address st = ""
  /\ cachedipv4Address st1 = ""
  /\ (inspections st < inspections st1)%nat.
Proof.
  unfold getIPV4Address, networkInterfaces_eth0.
  destruct (cachedipv4Address st) as [|c r] eqn:Hc.
  - cbn [truthy_string andb cachedipv4Address inspections].
    destruct (os (inspections st)).
    + destruct (os (S (inspections st))) as [items|].
      * destruct (firstIPv4 items); [discriminate|].
        intros [= <- _]. cbn. repeat split; lia.
      * intros [= <- _]. cbn. repeat split; lia.
    + intros [= <- _]. cbn. repeat split; lia.
  - cbn. discriminate.
Qed.

Lemma getIPV4Address_failure_witness :
  cachedipv4Address initialHost = ""
  /\ cachedipv4Address (mkHost "" 1) = ""
  /\ (inspections initialHost < inspections (mkHost "" 1))%nat.
Proof.
  apply (getIPV4Address_failure (fun _ => None) initialHost (mkHost "" 1)
           (Error
              "getIPV4Address() failed because os.networkInterfaces().eth0 is undefined.")).
  reflexivity.
Defined.

(** ** The prober settles *)

(** For a directory that exists, the promise of [countFilesRecursively]
    always settles: it is fulfilled with a count, or rejected with the
    timeout error; it is never left pending, whether the command ends,
    fails or hangs. *)
Theorem countFilesRecursively_settles
  (existsSync : string -> bool) (exec : string -> ExecOutcome)
  (directory : string) (timeoutMilliSeconds : option nat) :
  existsSync directory = true ->
  (exists count,
      countFilesRecursively existsSync exec directory timeoutMilliSeconds
      = Ok (Fulfilled count))
  \/ countFilesRecursively existsSync exec directory timeoutMilliSeconds
     = Ok (Rejected (Error (msg_timeout directory))).
Proof.
  intros He. unfold countFilesRecursively. rewrite He. cbn [negb]. cbv zeta.
  destruct (exec _) as [t out | t e |]; cbn [race final].
  - destruct (t <=? 5000)%N; cbn [final].
    + left. eexists. reflexivity.
    + right. reflexivity.
  - right. reflexivity.
  - right. reflexivity.
Qed.

Lemma countFilesRecursively_settles_witness :
  (exists count,
      countFilesRecursively (fun _ => true) (fun _ => Hangs) "/data" None
      = Ok (Fulfilled count))
  \/ countFilesRecursively (fun _ => true) (fun _ => Hangs) "/data" None
     = Ok (Rejected (Error (msg_timeout "/data"))).
Proof.
  apply (countFilesRecursively_settles (fun _ => true) (fun _ => Hangs)).
  reflexivity.
Defined.

(** ** The order of the steps of runScript *)

(** When [runScript] comes to write a file, it is the script, with mode
    0777, and what it has done before is to run the three scaffolding
    commands of the platform (working directory, [.nni] directory, metrics
    file), in this order and nothing else, each of which has succeeded;
    and it resolves only when the script has been written. *)
Theorem runScript_order
  (platform : string) (path_join : list string -> string)
  (exec : string -> ExecOutcome)
  (writeFile : string -> string -> N -> option error)
  (localTrailConfig : TrialConfig.t) (workingDirectory : string)
  (variables : list (string * string))
  (path content : string) (mode : N) :
  In (WriteFile path content mode)
     (fst (runScript platform path_join exec writeFile
             localTrailConfig workingDirectory variables)) ->
  fst (runScript platform path_join exec writeFile
         localTrailConfig workingDirectory variables)
  = (map RunCommand (scaffolding platform path_join workingDirectory)
     ++ [WriteFile path content mode])%list
  /\ Forall (succeeds exec) (scaffolding platform path_join workingDirectory)
  /\ path = path_join [workingDirectory; script_name platform]
  /\ mode = 511%N
  /\ (forall command,
         snd (runScript platform path_join exec writeFile
                localTrailConfig workingDirectory variables)
         = Fulfilled command ->
         writeFile path content mode = None).
Proof.
  unfold runScript, await_exec, await_writeFile, succeeds, scaffolding,
    script_name.
  destruct (platform =? "win32"); cbv zeta;
    repeat match goal with
           | |- context [exec ?c] =>
               let E := fresh "E" in destruct (exec c) eqn:E
           end;
    try match goal with
        | |- context [writeFile (path_join ?p) ?c ?m] =>
            destruct (writeFile (path_join p) c m) eqn:W
        end;
    cbn [fst snd In Deferred_resolve Deferred_new map List.app];
    intros H;
    repeat match type of H with
           | _ \/ _ => destruct H as [H | H]
           | False => destruct H
           | RunCommand _ = WriteFile _ _ _ => discriminate H
           end;
    injection H as <- <- <-;
    (split; [reflexivity|]);
    (split; [repeat constructor; do 2 eexists; eassumption|]);
    (split; [reflexivity|]);
    (split; [reflexivity|]);
    intros command Hc; first [discriminate Hc | exact W].
Qed.

Lemma runScript_order_witness :
  fst (runScript "linux" posix_join (fun _ => Exits 1 "") (fun _ _ _ => None)
         mnist "/w" [])
  = (map RunCommand ["mkdir -p /w"; "mkdir -p /w/.nni"; "touch /w/.nni/metrics"]
     ++ [WriteFile "/w/run.sh"
           (join (chr LF) (runScriptLines_posix posix_join mnist "/w" [])) 511])%list
  /\ Forall (succeeds (fun _ => Exits 1 ""))
            ["mkdir -p /w"; "mkdir -p /w/.nni"; "touch /w/.nni/metrics"]
  /\ "/w/run.sh" = posix_join ["/w"; "run.sh"]
  /\ 511%N = 511%N
  /\ (forall command,
         snd (runScript "linux" posix_join (fun _ => Exits 1 "")
                (fun _ _ _ => None) mnist "/w" [])
         = Fulfilled command ->
         (fun _ _ _ => @None error) "/w/run.sh"
           (join (chr LF) (runScriptLines_posix posix_join mnist "/w" [])) 511%N
         = None).
Proof.
  apply (runScript_order "linux" posix_join (fun _ => Exits 1 "")
           (fun _ _ _ => None) mnist "/w" []).
  cbn. right. right. right. left. reflexivity.
Defined.

(** ** The dispatcher command, spawned *)

(** The piece being read can be set apart from the pieces of the rest. *)
Lemma split_aux_cur (sep : string) (s : string) :
  forall (skip : nat) (cur : string),
    split_aux sep skip cur s
    = match split_aux sep skip "" s with
      | piece :: pieces => (rev_string "" cur ++ piece) :: pieces
      | [] => []
      end.
Proof.
  induction s as [|c r IH]; intros skip cur.
  - cbn [split_aux rev_string]. now rewrite append_nil_r.
  - cbn [split_aux]. destruct skip as [|k].
    + destruct (prefix sep (String c r)).
      * cbn [rev_string]. now rewrite append_nil_r.
      * rewrite (IH 0%nat (String c cur)), (IH 0%nat (String c "")).
        destruct (split_aux sep 0 "" r) as [|piece pieces]; [reflexivity|].
        cbn [rev_string]. now rewrite !rev_string_app.
    + apply IH.
Qed.

Lemma split_aux_nonempty (sep : string) (s : string) :
  forall (skip : nat) (cur : string), split_aux sep skip cur s <> [].
Proof.
  induction s as [|c r IH]; intros skip cur; cbn [split_aux]; [discriminate|].
  destruct skip as [|k]; [|apply IH].
  destruct (prefix sep (String c r)); [discriminate | apply IH].
Qed.

Lemma join_head (sep a piece : string) (pieces : list string) :
  join sep ((a ++ piece) :: pieces) = a ++ join sep (piece :: pieces).
Proof.
  unfold join. destruct pieces as [|p pieces]; cbn [concat]; [reflexivity|].
  now rewrite append_assoc.
Qed.

(** A text that starts with a blank still does after the substitution. *)
Lemma substituted_blank (r : string) :
  exists r', substituted (String " " r) = String " " r'.
Proof.
  unfold substituted, split.
  change (split_aux "python3" 0 "" (String " " r))
    with (split_aux "python3" 0 " " r).
  rewrite split_aux_cur.
  destruct (split_aux "python3" 0 "" r) as [|piece pieces] eqn:E.
  - now apply split_aux_nonempty in E.
  - cbn [rev_string]. rewrite join_head. eexists. reflexivity.
Qed.

Lemma substituted_python3_m_nni (r : string) :
  exists r',
    substituted ("python3 -m nni" ++ String " " r)
    = "python" ++ String " " ("-m" ++ String " " ("nni" ++ String " " r')).
Proof.
  destruct (substituted_blank r) as [r' E]. exists r'.
  unfold substituted, split in *.
  change (split_aux "python3" 0 "" ("python3 -m nni" ++ String " " r))
    with ("" :: split_aux "python3" 0 (rev_string "" " -m nni") (String " " r)).
  rewrite split_aux_cur.
  destruct (split_aux "python3" 0 "" (String " " r)) as [|piece pieces] eqn:S.
  - now apply split_aux_nonempty in S.
  - change (rev_string "" (rev_string "" " -m nni")) with " -m nni".
    change (join "python" ("" :: (" -m nni" ++ piece) :: pieces))
      with ("python" ++ join "python" ((" -m nni" ++ piece) :: pieces)).
    rewrite join_head, E. reflexivity.
Qed.

(** A command line the builder returns is [python3 -m nni] followed by
    options. *)
Lemma getMsgDispatcherCommand_python3
  (platform : string) (tuner assessor advisor : option AlgoSpec)
  (multiPhase multiThread : bool) (command : string) :
  getMsgDispatcherCommand platform tuner assessor advisor multiPhase multiThread
  = Ok command ->
  exists r, command = "python3 -m nni" ++ String " " r.
Proof.
  intros H. pose proof (getMsgDispatcherCommand_tokens _ _ _ _ _ _ _ H) as E.
  pose proof (getMsgDispatcherCommand_cases platform tuner assessor advisor
                multiPhase multiThread) as C.
  cbv zeta in C.
  assert (exists t rest,
             dispatcher_tokens platform tuner assessor advisor = t :: rest)
    as (t & rest & T).
  { unfold dispatcher_tokens, spec_tokens.
    destruct advisor as [a|]; [do 2 eexists; reflexivity|].
    destruct tuner as [tu|]; [do 2 eexists; cbn [List.app]; reflexivity|].
    rewrite H in C. discriminate C. }
  rewrite T in E. subst command. unfold base_command.
  cbn [render_tokens]. destruct t as [[ro f] v]. cbn [render_token].
  rewrite !append_assoc.
  destruct multiPhase, multiThread; cbn [append]; eexists; reflexivity.
Qed.

(** Given to [getTunerProc] on [win32], a command line the builder
    returns starts [python], without a shell, with [-m] and [nni] as its
    first two arguments. *)
Theorem getTunerProc_of_dispatcher_command
  (StdioOptions Env : Type) (platform : string)
  (tuner assessor advisor : option AlgoSpec) (multiPhase multiThread : bool)
  (command : string) (stdio : StdioOptions) (newCwd : string) (newEnv : Env) :
  getMsgDispatcherCommand platform tuner assessor advisor multiPhase multiThread
  = Ok command ->
  exists rest,
    getTunerProc "win32" StdioOptions Env command stdio newCwd newEnv
    = spawn "python" ("-m" :: "nni" :: rest)
            (mkSpawnOptions stdio newCwd newEnv false).
Proof.
  intros H. destruct (getMsgDispatcherCommand_python3 _ _ _ _ _ _ _ H) as [r ->].
  destruct (substituted_python3_m_nni r) as [r' E].
  exists (split " " r').
  unfold getTunerProc. cbn [String.eqb Ascii.eqb Bool.eqb].
  fold (substituted ("python3 -m nni" ++ String " " r)). rewrite E.
  unfold split_limit, split.
  rewrite (split_at_first_blank "python" _ "" eq_refl).
  cbn [rev_string firstn hd]. rewrite substr_past.
  rewrite (split_at_first_blank "-m" _ "" eq_refl). unfold split.
  rewrite (split_at_first_blank "nni" _ "" eq_refl).
  reflexivity.
Qed.

Lemma getTunerProc_of_dispatcher_command_witness :
  exists rest,
    getTunerProc "win32" unit unit "python3 -m nni --tuner_class_name T"
                 tt "/tmp" tt
    = spawn "python" ("-m" :: "nni" :: rest) (mkSpawnOptions tt "/tmp" tt false).
Proof.
  apply (getTunerProc_of_dispatcher_command unit unit "win32"
           (Some tuner_T) None None false false).
  reflexivity.
Defined.

(** ** Directories *)

Lemma path_eqb_eq (p q : FS.path) : FS.path_eqb p q = true <-> p = q.
Proof.
  revert q. induction p as [|a p IH]; intros [|b q]; cbn [FS.path_eqb].
  - split; reflexivity.
  - split; discriminate.
  - split; discriminate.
  - rewrite andb_true_iff, String.eqb_eq, IH. split.
    + intros [-> ->]. reflexivity.
    + intros [= -> ->]. split; reflexivity.
Qed.

Lemma path_eqb_refl (p : FS.path) : FS.path_eqb p p = true.
Proof. now apply path_eqb_eq. Qed.

Lemma above_or_self_refl (p : FS.path) : above_or_self p p.
Proof. now exists []. Qed.

Lemma above_or_self_cons (name : string) (q p : FS.path) :
  above_or_self q p -> above_or_self q (name :: p).
Proof. intros [below ->]. now exists (name :: below). Qed.

Lemma above_or_self_inv (name : string) (q p : FS.path) :
  above_or_self q (name :: p) -> q = name :: p \/ above_or_self q p.
Proof.
  intros [[|a below] E]; cbn [List.app] in E.
  - left. now symmetry.
  - right. injection E as _ ->. now exists below.
Qed.

Lemma not_above_itself (name : string) (p : FS.path) :
  ~ above_or_self (name :: p) p.
Proof.
  intros [below E]. apply (f_equal (@List.length string)) in E.
  rewrite length_app in E. cbn [List.length] in E. lia.
Qed.

Lemma above_cons (name : string) (q p : FS.path) :
  above q p -> above q (name :: p).
Proof. intros (n & below & ->). now exists n, (name :: below). Qed.

Lemma above_of_parent (name : string) (q p : FS.path) :
  above_or_self q p -> above q (name :: p).
Proof.
  intros [below ->]. revert name.
  induction below as [|a below IH]; intros name.
  - now exists name, [].
  - destruct (IH a) as (n & l & E). exists n, (name :: l).
    cbn [List.app] in *. now rewrite E.
Qed.

Lemma above_is_above_or_self (q p : FS.path) : above q p -> above_or_self q p.
Proof.
  intros (n & below & ->). exists (below ++ [n])%list.
  now rewrite <- app_assoc.
Qed.

Lemma existsSync_false (fs : FS.state) (p : FS.path) :
  FS.existsSync fs p = false -> fs p = None.
Proof. unfold FS.existsSync. destruct (fs p); [discriminate | reflexivity]. Qed.

Section Made.

Variable refuses : FS.path -> option FS.errno.

Lemma mkDirPSync_there (fs : FS.state) (p : FS.path) :
  fs p <> None -> mkDirPSync refuses fs p = (fs, FS.Returns).
Proof.
  intros H.
  assert (FS.existsSync fs p = true) as E
      by (unfold FS.existsSync; destruct (fs p); [reflexivity | now elim H]).
  destruct p; cbn [mkDirPSync]; now rewrite E.
Qed.

(** What a call that returns has done. *)
Lemma mkDirPSync_returned (p : FS.path) :
  forall fs fs' : FS.state,
    mkDirPSync refuses fs p = (fs', FS.Returns) ->
    fs' p <> None
    /\ (forall q, fs q <> None -> fs' q = fs q)
    /\ (forall q, fs q = None -> fs' q <> None ->
                  fs' q = Some FS.Dir /\ above_or_self q p).
Proof.
  induction p as [|name parent IH]; intros fs fs'; cbn [mkDirPSync].
  - destruct (FS.existsSync fs []) eqn:E; [|discriminate].
    intros [= <-]. split; [|split].
    + unfold FS.existsSync in E. destruct (fs []); [discriminate | discriminate].
    + reflexivity.
    + intros q H H'. now elim H'.
  - destruct (FS.existsSync fs (name :: parent)) eqn:E.
    + intros [= <-]. split; [|split].
      * unfold FS.existsSync in E.
        destruct (fs (name :: parent)); [discriminate | discriminate].
      * reflexivity.
      * intros q H H'. now elim H'.
    + apply existsSync_false in E.
      destruct (mkDirPSync refuses fs parent) as [fs1 c] eqn:R.
      destruct c; try discriminate.
      destruct (IH _ _ R) as (I1 & I2 & I3).
      unfold FS.mkdir. cbn [FS.dirname tl].
      destruct (refuses (name :: parent)); [discriminate|].
      destruct (fs1 (name :: parent)); [discriminate|].
      destruct (fs1 parent) as [[|]|] eqn:P; try discriminate.
      intros [= <-]. split; [|split].
      * rewrite path_eqb_refl. discriminate.
      * intros q H. destruct (FS.path_eqb q (name :: parent)) eqn:Q.
        -- apply path_eqb_eq in Q. subst q. now elim H.
        -- now apply I2.
      * intros q H H'. destruct (FS.path_eqb q (name :: parent)) eqn:Q.
        -- split; [reflexivity|].
           apply path_eqb_eq in Q. subst q. apply above_or_self_refl.
        -- destruct (I3 q H H') as [A B].
           split; [exact A | now apply above_or_self_cons].
Qed.

(** What a call that does not return has done, and why it has not. *)
Lemma mkDirPSync_failed (p : FS.path) :
  forall (fs fs' : FS.state) (c : FS.completion),
    mkDirPSync refuses fs p = (fs', c) ->
    c <> FS.Returns ->
    fs' p = None
    /\ (forall q, fs q <> None -> fs' q = fs q)
    /\ (forall q, fs q = None -> fs' q <> None ->
                  fs' q = Some FS.Dir /\ above q p)
    /\ ((c = FS.StackOverflow /\ fs' = fs
         /\ forall q, above_or_self q p -> fs q = None)
        \/ exists q e,
             above_or_self q p
             /\ FS.mkdir refuses fs' q = (fs', Some e)
             /\ c = FS.Throws (FS.SystemError e "mkdir" q)).
Proof.
  induction p as [|name parent IH]; intros fs fs' c; cbn [mkDirPSync].
  - destruct (FS.existsSync fs []) eqn:E; intros [= <- <-] Hc; [now elim Hc|].
    apply existsSync_false in E. split; [exact E|]. split; [reflexivity|].
    split; [intros q H H'; now elim H'|]. left.
    split; [reflexivity|]. split; [reflexivity|]. intros q [below B].
    symmetry in B. apply app_eq_nil in B. destruct B as [_ ->]. exact E.
  - destruct (FS.existsSync fs (name :: parent)) eqn:E.
    { intros [= <- <-] Hc. now elim Hc. }
    apply existsSync_false in E.
    destruct (mkDirPSync refuses fs parent) as [fs1 c1] eqn:R.
    assert (c1 <> FS.Returns -> (fs1, c1) = (fs', c) -> c <> FS.Returns ->
            fs' (name :: parent) = None
            /\ (forall q, fs q <> None -> fs' q = fs q)
            /\ (forall q, fs q = None -> fs' q <> None ->
                          fs' q = Some FS.Dir /\ above q (name :: parent))
            /\ ((c = FS.StackOverflow /\ fs' = fs
                 /\ forall q, above_or_self q (name :: parent) -> fs q = None)
                \/ exists q e,
                     above_or_self q (name :: parent)
                     /\ FS.mkdir refuses fs' q = (fs', Some e)
                     /\ c = FS.Throws (FS.SystemError e "mkdir" q)))
      as Up.
    { intros N [= <- <-] _.
      destruct (IH _ _ _ R N) as (J0 & J1 & J2 & Cause).
      split; [|split; [exact J1|split]].
      - destruct (fs1 (name :: parent)) eqn:P; [|reflexivity]. exfalso.
        destruct (J2 (name :: parent) E) as [_ A]; [rewrite P; discriminate|].
        apply (not_above_itself name parent). now apply above_is_above_or_self.
      - intros q H H'. destruct (J2 q H H') as [A B].
        split; [exact A | now apply above_cons].
      - destruct Cause as [(-> & -> & Hq) | (q & e & A & B & C)].
        + left. split; [reflexivity|]. split; [reflexivity|]. intros q Hq'.
          apply above_or_self_inv in Hq'. destruct Hq' as [-> | Hq']; auto.
        + right. exists q, e. split; [now apply above_or_self_cons|].
          split; assumption. }
    destruct c1 as [|e|]; [| apply Up; discriminate | apply Up; discriminate].
    clear Up IH. destruct (mkDirPSync_returned _ _ _ R) as (I1 & I2 & I3).
    assert (fs1 (name :: parent) = None) as P.
    { destruct (fs1 (name :: parent)) eqn:P; [|reflexivity]. exfalso.
      apply (not_above_itself name parent).
      apply (I3 (name :: parent) E). rewrite P. discriminate. }
    destruct (FS.mkdir refuses fs1 (name :: parent)) as [fs2 [e|]] eqn:M.
    + intros [= <- <-] _.
      assert (fs2 = fs1) as ->.
      { revert M. unfold FS.mkdir. cbn [FS.dirname tl]. rewrite P.
        destruct (refuses (name :: parent)); [now intros [= <- _]|].
        destruct (fs1 parent) as [[|]|]; [discriminate| |];
          now intros [= <- _]. }
      split; [exact P|]. split; [exact I2|]. split.
      * intros q H H'. destruct (I3 q H H') as [A B].
        split; [exact A | now apply above_of_parent].
      * right. exists (name :: parent), e.
        split; [apply above_or_self_refl|]. split; [exact M | reflexivity].
    + intros [= <- <-] Hc. now elim Hc.
Qed.

(** The same, when the system refuses nothing of itself on the way. *)
Lemma mkDirPSync_failed_unrefused (p : FS.path) :
  (forall q, above_or_self q p -> refuses q = None) ->
  forall (fs fs' : FS.state) (c : FS.completion),
    mkDirPSync refuses fs p = (fs', c) ->
    c <> FS.Returns ->
    fs' = fs
    /\ ((c = FS.StackOverflow
         /\ forall q, above_or_self q p -> fs q = None)
        \/ exists name q,
             above_or_self (name :: q) p
             /\ fs q = Some FS.Reg
             /\ fs (name :: q) = None
             /\ c = FS.Throws (FS.SystemError FS.ENOTDIR "mkdir" (name :: q))).
Proof.
  induction p as [|name parent IH]; intros Href fs fs' c; cbn [mkDirPSync].
  - destruct (FS.existsSync fs []) eqn:E; intros [= <- <-] Hc; [now elim Hc|].
    apply existsSync_false in E. split; [reflexivity|]. left.
    split; [reflexivity|]. intros q [below B].
    symmetry in B. apply app_eq_nil in B. destruct B as [_ ->]. exact E.
  - destruct (FS.existsSync fs (name :: parent)) eqn:E.
    { intros [= <- <-] Hc. now elim Hc. }
    apply existsSync_false in E.
    assert (forall q, above_or_self q parent -> refuses q = None) as Href'
        by (intros q Hq; apply Href; now apply above_or_self_cons).
    specialize (IH Href').
    destruct (mkDirPSync refuses fs parent) as [fs1 c1] eqn:R.
    assert (c1 <> FS.Returns -> (fs1, c1) = (fs', c) -> c <> FS.Returns ->
            fs' = fs
            /\ ((c = FS.StackOverflow
                 /\ forall q, above_or_self q (name :: parent) -> fs q = None)
                \/ exists n q,
                     above_or_self (n :: q) (name :: parent)
                     /\ fs q = Some FS.Reg
                     /\ fs (n :: q) = None
                     /\ c = FS.Throws (FS.SystemError FS.ENOTDIR "mkdir" (n :: q))))
      as Up.
    { intros N [= <- <-] _. destruct (IH _ _ _ R N) as [-> Cause].
      split; [reflexivity|]. destruct Cause as [[-> Hq] | (n & q & A & B & C & D)].
      - left. split; [reflexivity|]. intros q Hq'.
        apply above_or_self_inv in Hq'. destruct Hq' as [-> | Hq']; auto.
      - right. exists n, q. repeat split; auto. now apply above_or_self_cons. }
    destruct c1 as [|e|]; [| apply Up; discriminate | apply Up; discriminate].
    clear Up IH. destruct (mkDirPSync_returned _ _ _ R) as (I1 & I2 & I3).
    unfold FS.mkdir. cbn [FS.dirname tl].
    rewrite (Href (name :: parent) (above_or_self_refl _)).
    destruct (fs1 (name :: parent)) eqn:P.
    + exfalso. apply (not_above_itself name parent).
      apply (I3 (name :: parent) E). rewrite P. discriminate.
    + destruct (fs1 parent) as [[|]|] eqn:D.
      * intros [= <- <-] Hc. now elim Hc.
      * intros [= <- <-] _.
        destruct (fs parent) eqn:F.
        -- rewrite mkDirPSync_there in R by (rewrite F; discriminate).
           injection R as <-. split; [reflexivity|]. right.
           exists name, parent. repeat split.
           ++ apply above_or_self_refl.
           ++ congruence.
           ++ exact E.
        -- destruct (I3 parent F) as [D' _]; [rewrite D; discriminate|].
           congruence.
      * now elim I1.
Qed.

End Made.

(** When the top exists, nothing above [dirPath] is a regular file and
    the system refuses none of the directories that are missing on the
    way, [mkDirPSync] returns, and [dirPath] exists from then on; nothing
    that existed has changed, and whatever is new is a directory,
    [dirPath] itself or one above it. *)
Theorem mkDirPSync_creates
  (refuses : FS.path -> option FS.errno) (fs : FS.state) (dirPath : FS.path) :
  fs [] <> None ->
  (forall q, above q dirPath -> fs q <> Some FS.Reg) ->
  (forall q, above_or_self q dirPath -> fs q = None -> refuses q = None) ->
  exists fs' : FS.state,
    mkDirPSync refuses fs dirPath = (fs', FS.Returns)
    /\ fs' dirPath <> None
    /\ (forall q, fs q <> None -> fs' q = fs q)
    /\ (forall q, fs q = None -> fs' q <> None ->
                  fs' q = Some FS.Dir /\ above_or_self q dirPath).
Proof.
  intros Htop Hreg Href.
  assert (exists fs', mkDirPSync refuses fs dirPath = (fs', FS.Returns))
    as [fs' R].
  { induction dirPath as [|name parent IH].
    - exists fs. now apply mkDirPSync_there.
    - destruct (fs (name :: parent)) eqn:E.
      + exists fs. apply mkDirPSync_there. rewrite E. discriminate.
      + destruct IH as [fs1 R].
        { intros q (n & below & ->). apply Hreg. now exists n, (name :: below). }
        { intros q Hq. apply Href. now apply above_or_self_cons. }
        destruct (mkDirPSync_returned _ _ _ _ R) as (I1 & I2 & I3).
        cbn [mkDirPSync]. unfold FS.existsSync at 1. rewrite E, R.
        unfold FS.mkdir. cbn [FS.dirname tl].
        rewrite (Href (name :: parent) (above_or_self_refl _) E).
        destruct (fs1 (name :: parent)) eqn:P.
        * exfalso. apply (not_above_itself name parent).
          apply (I3 (name :: parent) E). rewrite P. discriminate.
        * destruct (fs1 parent) as [[|]|] eqn:D.
          -- eexists. reflexivity.
          -- exfalso. destruct (fs parent) eqn:F.
             ++ rewrite I2 in D by (rewrite F; discriminate).
                apply (Hreg parent); [now exists name, [] | congruence].
             ++ destruct (I3 parent F) as [D' _]; [rewrite D; discriminate|].
                congruence.
          -- now elim I1. }
  exists fs'. split; [exact R |]. now apply (mkDirPSync_returned refuses).
Qed.

Lemma mkDirPSync_creates_witness :
  exists fs' : FS.state,
    mkDirPSync (fun _ => None) home ["log"; "nni"; "home"] = (fs', FS.Returns)
    /\ fs' ["log"; "nni"; "home"] <> None
    /\ (forall q, home q <> None -> fs' q = home q)
    /\ (forall q, home q = None -> fs' q <> None ->
                  fs' q = Some FS.Dir /\ above_or_self q ["log"; "nni"; "home"]).
Proof.
  apply (mkDirPSync_creates (fun _ => None) home ["log"; "nni"; "home"]).
  - discriminate.
  - intros q (name & below & E).
    destruct below as [|a [|b [|c below]]]; cbn [List.app] in E;
      injection E as; subst; try discriminate.
    destruct below; discriminate.
  - reflexivity.
Defined.

(** When [mkDirPSync] does not return, [dirPath] has not been made and
    nothing that existed has changed, but directories above [dirPath] may
    have been made before the one [mkdir] failed for.  Either nothing
    exists on the way to [dirPath], not even the top, and the recursion
    has no end; or the error is that of [mkdir] for a path on the way.
    When the system refuses nothing of itself, no directory has been made
    at all, and the error, if there is one, is that of making a directory
    in a regular file, the nearest thing that exists above [dirPath]. *)
Theorem mkDirPSync_failure
  (refuses : FS.path -> option FS.errno) (dirPath : FS.path)
  (fs fs' : FS.state) (c : FS.completion) :
  mkDirPSync refuses fs dirPath = (fs', c) ->
  c <> FS.Returns ->
  fs' dirPath = None
  /\ (forall q, fs q <> None -> fs' q = fs q)
  /\ (forall q, fs q = None -> fs' q <> None ->
                fs' q = Some FS.Dir /\ above q dirPath)
  /\ ((c = FS.StackOverflow /\ fs' = fs
       /\ forall q, above_or_self q dirPath -> fs q = None)
      \/ exists q e,
           above_or_self q dirPath
           /\ FS.mkdir refuses fs' q = (fs', Some e)
           /\ c = FS.Throws (FS.SystemError e "mkdir" q))
  /\ ((forall q, above_or_self q dirPath -> refuses q = None) ->
      fs' = fs
      /\ ((c = FS.StackOverflow
           /\ forall q, above_or_self q dirPath -> fs q = None)
          \/ exists name q,
               above_or_self (name :: q) dirPath
               /\ fs q = Some FS.Reg
               /\ fs (name :: q) = None
               /\ c = FS.Throws
                        (FS.SystemError FS.ENOTDIR "mkdir" (name :: q)))).
Proof.
  intros R Hc.
  destruct (mkDirPSync_failed refuses dirPath fs fs' c R Hc) as (A & B & C & D).
  repeat (split; [assumption|]).
  intros Href.
  exact (mkDirPSync_failed_unrefused refuses dirPath Href fs fs' c R Hc).
Qed.

Lemma mkDirPSync_failure_witness :
  let fs' := fst (mkDirPSync no_room home ["log"; "nni"; "home"]) in
  let c := FS.Throws (FS.SystemError (FS.Errno "ENOSPC" "no space left on device")
                        "mkdir" ["log"; "nni"; "home"]) in
  fs' ["nni"; "home"] = Some FS.Dir
  /\ fs' ["log"; "nni"; "home"] = None
  /\ (forall q, home q <> None -> fs' q = home q)
  /\ (forall q, home q = None -> fs' q <> None ->
                fs' q = Some FS.Dir /\ above q ["log"; "nni"; "home"])
  /\ ((c = FS.StackOverflow /\ fs' = home
       /\ forall q, above_or_self q ["log"; "nni"; "home"] -> home q = None)
      \/ exists q e,
           above_or_self q ["log"; "nni"; "home"]
           /\ FS.mkdir no_room fs' q = (fs', Some e)
           /\ c = FS.Throws (FS.SystemError e "mkdir" q)).
Proof.
  cbv zeta. split; [reflexivity|].
  destruct (mkDirPSync_failure no_room ["log"; "nni"; "home"] home
              (fst (mkDirPSync no_room home ["log"; "nni"; "home"]))
              (FS.Throws
                 (FS.SystemError (FS.Errno "ENOSPC" "no space left on device")
                    "mkdir" ["log"; "nni"; "home"]))
              eq_refl ltac:(discriminate))
    as (A & B & C & D & _).
  split; [exact A | split; [exact B | split; [exact C | exact D]]].
Defined.

(** A second call of [mkDirPSync] for the same path returns at once and
    changes nothing. *)
Theorem mkDirPSync_idempotent
  (refuses : FS.path -> option FS.errno) (fs fs' : FS.state)
  (dirPath : FS.path) :
  mkDirPSync refuses fs dirPath = (fs', FS.Returns) ->
  mkDirPSync refuses fs' dirPath = (fs', FS.Returns).
Proof.
  intros R. apply mkDirPSync_there.
  now apply (mkDirPSync_returned refuses _ _ _ R).
Qed.

Lemma mkDirPSync_idempotent_witness :
  mkDirPSync (fun _ => None)
    (fst (mkDirPSync (fun _ => None) home ["log"; "nni"; "home"]))
    ["log"; "nni"; "home"]
  = (fst (mkDirPSync (fun _ => None) home ["log"; "nni"; "home"]), FS.Returns).
Proof.
  apply (mkDirPSync_idempotent (fun _ => None) home). reflexivity.
Defined.

(** [mkDirPSync] keeps the file system well formed: if everything that
    exists is in a directory before the call, so it is after it. *)
Theorem mkDirPSync_closed
  (refuses : FS.path -> option FS.errno) (dirPath : FS.path) :
  forall (fs fs' : FS.state) (c : FS.completion),
    closed fs ->
    mkDirPSync refuses fs dirPath = (fs', c) ->
    closed fs'.
Proof.
  induction dirPath as [|name parent IH]; intros fs fs' c Hc; cbn [mkDirPSync].
  - destruct (FS.existsSync fs []); intros [= <- _]; exact Hc.
  - destruct (FS.existsSync fs (name :: parent)).
    { intros [= <- _]. exact Hc. }
    destruct (mkDirPSync refuses fs parent) as [fs1 c1] eqn:R.
    specialize (IH _ _ _ Hc R).
    destruct c1; [| intros [= <- _]; exact IH | intros [= <- _]; exact IH].
    unfold FS.mkdir. cbn [FS.dirname tl].
    destruct (refuses (name :: parent)); [intros [= <- _]; exact IH|].
    destruct (fs1 (name :: parent)) eqn:P; [intros [= <- _]; exact IH|].
    destruct (fs1 parent) as [[|]|] eqn:D;
      [| intros [= <- _]; exact IH | intros [= <- _]; exact IH].
    intros [= <- _]. intros n q H.
    destruct (FS.path_eqb q (name :: parent)) eqn:Q.
    + reflexivity.
    + destruct (FS.path_eqb (n :: q) (name :: parent)) eqn:Q'.
      * apply path_eqb_eq in Q'. injection Q' as -> ->. exact D.
      * now apply (IH n).
Qed.

Lemma closed_home : closed home.
Proof.
  intros name p H. unfold home in *.
  destruct p as [|a [|b p]].
  - reflexivity.
  - destruct (a =? "home"); [reflexivity|]. cbn [andb] in H. now elim H.
  - now elim H.
Qed.

Lemma mkDirPSync_closed_witness :
  closed (fst (mkDirPSync (fun _ => None) home ["log"; "nni"; "home"])).
Proof.
  apply (mkDirPSync_closed (fun _ => None) ["log"; "nni"; "home"] home _
           FS.Returns closed_home).
  reflexivity.
Defined.

(** [mkDirP] does to the file system what [mkDirPSync] does: its promise
    is fulfilled when [mkDirPSync] returns and rejected with the error
    [mkDirPSync] throws; where the recursion of [mkDirPSync] has no end,
    the promise is never settled. *)
Theorem mkDirP_mkDirPSync
  (refuses : FS.path -> option FS.errno) (dirPath : FS.path) :
  forall fs : FS.state,
    mkDirP refuses fs dirPath
    = (fst (mkDirPSync refuses fs dirPath),
       settled (snd (mkDirPSync refuses fs dirPath))).
Proof.
  induction dirPath as [|name parent IH]; intros fs; cbn [mkDirP mkDirPSync].
  - destruct (FS.existsSync fs []); reflexivity.
  - destruct (FS.existsSync fs (name :: parent)); [reflexivity|].
    rewrite IH. destruct (mkDirPSync refuses fs parent) as [fs1 c].
    destruct c; cbn [fst snd settled]; [|reflexivity|reflexivity].
    destruct (FS.mkdir refuses fs1 (name :: parent)) as [fs2 [err|]]; reflexivity.
Qed.
